(** * overpaint: the table-listing scripts [src/listTables.ts] and
    [src/listTables.tsx]

    A shallow embedding of the two scripts and the properties their
    specification states about them.

    Conventions of the embedding.
    - A JavaScript string is a [string]; one [ascii] stands for one code
      unit, so [String.length] is the [.length] of the script.  Case
      mapping is modelled on the letters A-Z: the scripts only compare a
      lower-cased string with keys and prefixes made of ASCII letters,
      which no other letter can produce.
    - A [bigint] is a [Z]; [/] and [%] on bigints truncate towards zero
      ([Z.quot], [Z.rem]).  The column count, a JavaScript number that
      holds an [int] of the database, is a [Z] too.
    - A value that may be [undefined] or [null] is a [nullable].
    - [try]/[catch] and rejected promises are a [result].
    - The database is a [Database]: the catalog relations, the answers
      to the statements the scripts build, and the failures of the
      connection and of the statements.
    - What the language leaves to the engine in reading a date is an
      [Engine].
    - The first part of the file holds the definitions, the second one
      the theorems. *)

From Stdlib Require Import ZArith String Ascii List Lia Bool.
From Stdlib Require DecimalString DecimalPos DecimalZ.
From stdpp Require Import gmap strings.
Import ListNotations.

Local Open Scope string_scope.
Local Open Scope Z_scope.

#[local] Arguments String.append !s1 s2 : simpl nomatch.

(** ** JavaScript strings *)

Module JsString.

(** The double-quote character, code unit 34. *)
Definition dq : ascii := "034"%char.

Definition is_dq (c : ascii) : bool := Ascii.eqb c dq.

(** [s.replace(/c/g, by)] for a one-character pattern. *)
Fixpoint replace_all_char (c : ascii) (by_ : string) (s : string) : string :=
  match s with
  | EmptyString => EmptyString
  | String a rest =>
      if Ascii.eqb a c then by_ ++ replace_all_char c by_ rest
      else String a (replace_all_char c by_ rest)
  end.

(** [s.replace(c, by)] for a one-character string pattern: the first
    occurrence only. *)
Fixpoint replace_first_char (c : ascii) (by_ : string) (s : string) : string :=
  match s with
  | EmptyString => EmptyString
  | String a rest =>
      if Ascii.eqb a c then by_ ++ rest
      else String a (replace_first_char c by_ rest)
  end.

(** [s.includes(c)] for a one-character string. *)
Fixpoint includes_char (c : ascii) (s : string) : bool :=
  match s with
  | EmptyString => false
  | String a rest => Ascii.eqb a c || includes_char c rest
  end.

Fixpoint count_char (c : ascii) (s : string) : nat :=
  match s with
  | EmptyString => O
  | String a rest =>
      if Ascii.eqb a c then S (count_char c rest) else count_char c rest
  end.

Fixpoint remove_char (c : ascii) (s : string) : string :=
  match s with
  | EmptyString => EmptyString
  | String a rest =>
      if Ascii.eqb a c then remove_char c rest
      else String a (remove_char c rest)
  end.

(** [s.startsWith(p)] *)
Definition startsWith (p s : string) : bool := String.prefix p s.

(** [s.slice(0, n)] *)
Fixpoint slice0 (n : nat) (s : string) : string :=
  match n, s with
  | S k, String a rest => String a (slice0 k rest)
  | _, _ => EmptyString
  end.

Fixpoint repeat_char (c : ascii) (n : nat) : string :=
  match n with
  | O => EmptyString
  | S k => String c (repeat_char c k)
  end.

(** [s.padEnd(n, " ")] *)
Definition padEnd (n : nat) (s : string) : string :=
  s ++ repeat_char " "%char (n - String.length s).

Definition lower_ascii (c : ascii) : ascii :=
  let n := nat_of_ascii c in
  if (Nat.leb 65 n && Nat.leb n 90)%bool then ascii_of_nat (n + 32) else c.

(** [s.toLowerCase()] *)
Fixpoint toLowerCase (s : string) : string :=
  match s with
  | EmptyString => EmptyString
  | String a rest => String (lower_ascii a) (toLowerCase rest)
  end.

(** [Math.max(...xs)] over lengths; the scripts call it on non-empty
    arrays only, or with a leading constant. *)
Definition max_list (xs : list nat) : nat := fold_right Nat.max O xs.

End JsString.
Import JsString.

(** ** Identifier quoter ([quoteIdent], the same text in both scripts) *)

Definition quoteIdent (identifier : string) : string :=
  String dq EmptyString
  ++ replace_all_char dq (String dq (String dq EmptyString)) identifier
  ++ String dq EmptyString.

(** The reader of a quoted body: a quote must be followed by a second one
    and stands for one quote; any other character stands for itself.  It
    is the specification's side of [quoteIdent]: a body it accepts has all
    its quotes in pairs. *)
Fixpoint unquote_body (s : string) : option string :=
  match s with
  | EmptyString => Some EmptyString
  | String a rest =>
      if is_dq a then
        match rest with
        | String b rest' =>
            if is_dq b then option_map (String dq) (unquote_body rest')
            else None
        | EmptyString => None
        end
      else option_map (String a) (unquote_body rest)
  end.

(** ** JavaScript values that may be missing *)

(** [T | null | undefined]: the value of an optional, nullable field. *)
Inductive nullable (A : Type) : Type :=
| Undefined : nullable A
| Null : nullable A
| Val : A -> nullable A.
Arguments Undefined {A}.
Arguments Null {A}.
Arguments Val {A} _.

(** [x !== null] *)
Definition not_null {A : Type} (x : nullable A) : bool :=
  match x with
  | Null => false
  | _ => true
  end.

(** ** Results of code that may throw *)

Inductive result (A : Type) : Type :=
| Ok : A -> result A
| Throw : string -> result A.
Arguments Ok {A} _.
Arguments Throw {A} _.

Definition bind {A B : Type} (r : result A) (k : A -> result B) : result B :=
  match r with
  | Ok a => k a
  | Throw e => Throw e
  end.

Notation "'let*' x ':=' r 'in' k" := (bind r (fun x => k))
  (at level 10, x pattern, r at level 100, k at level 200).

(** [try { r } catch { d }] *)
Definition try_catch {A : Type} (r : result A) (d : A) : A :=
  match r with
  | Ok a => a
  | Throw _ => d
  end.

(** ** bigint *)

Module BigInt.

(** [z.toString()]: decimal digits, a leading minus sign for a negative
    value, ["0"] for zero. *)
Definition toString (z : Z) : string :=
  DecimalString.NilZero.string_of_int (Z.to_int z).

(** White space and line terminators that [StringToBigInt] trims, among
    the code units below 256. *)
Definition is_space (c : ascii) : bool :=
  match nat_of_ascii c with
  | 9%nat | 10%nat | 11%nat | 12%nat | 13%nat | 32%nat | 160%nat => true
  | _ => false
  end.

Fixpoint trim_start (s : string) : string :=
  match s with
  | EmptyString => EmptyString
  | String c rest => if is_space c then trim_start rest else s
  end.

Fixpoint trim_end (s : string) : string :=
  match s with
  | EmptyString => EmptyString
  | String c rest =>
      match trim_end rest with
      | EmptyString => if is_space c then EmptyString else String c EmptyString
      | r => String c r
      end
  end.

Definition trim (s : string) : string := trim_end (trim_start s).

(** The value of a digit in a base of at most 16. *)
Definition digit_value (c : ascii) : option Z :=
  let n := Z.of_nat (nat_of_ascii c) in
  if (48 <=? n) && (n <=? 57) then Some (n - 48)
  else if (97 <=? n) && (n <=? 102) then Some (n - 87)
  else if (65 <=? n) && (n <=? 70) then Some (n - 55)
  else None.

Fixpoint digits_value (base : Z) (acc : Z) (s : string) : option Z :=
  match s with
  | EmptyString => Some acc
  | String c rest =>
      match digit_value c with
      | Some v =>
          if v <? base then digits_value base (acc * base + v) rest else None
      | None => None
      end
  end.

(** A non-empty run of digits of the base. *)
Definition number_in (base : Z) (s : string) : option Z :=
  match s with
  | EmptyString => None
  | _ => digits_value base 0 s
  end.

(** [BigInt(s)] for a string [s] ([StringToBigInt]): surrounding white
    space is dropped; the empty string is zero; then either a decimal
    literal with an optional sign, or an unsigned literal in base 16, 8 or
    2 with its prefix.  Anything else throws a [SyntaxError]: [None]. *)
Definition ofString (s : string) : option Z :=
  match trim s with
  | EmptyString => Some 0
  | String "0" (String "x" r) | String "0" (String "X" r) => number_in 16 r
  | String "0" (String "o" r) | String "0" (String "O" r) => number_in 8 r
  | String "0" (String "b" r) | String "0" (String "B" r) => number_in 2 r
  | String "-" r => option_map Z.opp (number_in 10 r)
  | String "+" r => number_in 10 r
  | t => number_in 10 t
  end.

(** [BigInt(s)] as an operation that may throw. *)
Definition BigInt (s : string) : result Z :=
  match ofString s with
  | Some z => Ok z
  | None => Throw "SyntaxError"
  end.

End BigInt.

(** ** Percentages ([listTables.tsx]) *)

(** The rounded number of tenths of a percent of [n] in [d], for [d]
    other than zero: the [permille] of [formatPercentOneDecimal]. *)
Definition permille (n d : Z) : Z := Z.quot (n * 1000 + Z.quot d 2) d.

Definition formatPercentOneDecimal (n d : Z) : string :=
  if d =? 0 then "0.0%"
  else
    let permille := Z.quot (n * 1000 + Z.quot d 2) d in
    let whole := Z.quot permille 10 in
    let tenth := Z.rem permille 10 in
    BigInt.toString whole ++ "." ++ BigInt.toString tenth ++ "%".

(** The pair [{ tp, fp }]. *)
Definition booleanPercents (trueStr falseStr : string) : string * string :=
  let t := try_catch (BigInt.BigInt trueStr) 0 in
  let f := try_catch (BigInt.BigInt falseStr) 0 in
  let d := t + f in
  (formatPercentOneDecimal t d, formatPercentOneDecimal f d).

(** *** Reading a rendered percentage *)

Definition is_digit (c : ascii) : bool :=
  let n := nat_of_ascii c in (Nat.leb 48 n && Nat.leb n 57)%bool.

Fixpoint all_digits (s : string) : bool :=
  match s with
  | EmptyString => true
  | String c rest => is_digit c && all_digits rest
  end.

(** The text before the first occurrence of [c], and the text after it. *)
Fixpoint split_at (c : ascii) (s : string) : option (string * string) :=
  match s with
  | EmptyString => None
  | String a rest =>
      if Ascii.eqb a c then Some (EmptyString, rest)
      else
        match split_at c rest with
        | Some (l, r) => Some (String a l, r)
        | None => None
        end
  end.

(** A well-formed percentage with one decimal: one or more digits, a
    point, one digit, a percent sign. *)
Definition well_formed_percent (s : string) : bool :=
  match split_at "." s with
  | Some (w, String t (String "%" EmptyString)) =>
      negb (String.eqb w EmptyString) && all_digits w && is_digit t
  | _ => false
  end.

(** The number of tenths of a percent a well-formed percentage denotes. *)
Definition percent_tenths (s : string) : option Z :=
  if well_formed_percent s then
    match split_at "." s with
    | Some (w, String t _) =>
        match DecimalString.NilZero.int_of_string w with
        | Some i => Some (Z.of_int i * 10 + (Z.of_nat (nat_of_ascii t) - 48))
        | None => None
        end
    | _ => None
    end
  else None.

(** The count a histogram string stands for in [booleanPercents]: its
    bigint, or zero when [BigInt] throws. *)
Definition count_of (s : string) : Z := try_catch (BigInt.BigInt s) 0.

(** ** Column types ([listTables.tsx]) *)

Definition isNumericDataType (dt : string) : bool :=
  let t := toLowerCase dt in
  String.eqb t "numeric"
  || String.eqb t "decimal"
  || String.eqb t "smallint"
  || String.eqb t "integer"
  || String.eqb t "bigint"
  || String.eqb t "real"
  || String.eqb t "double precision".

Definition isBooleanDataType (dt : string) : bool :=
  String.eqb (toLowerCase dt) "boolean".

Definition isTemporalDataType (dt : string) : bool :=
  let t := toLowerCase dt in
  String.eqb t "date"
  || String.eqb t "timestamp with time zone"
  || String.eqb t "timestamp without time zone"
  || String.eqb t "timestamptz"
  || String.eqb t "time with time zone"
  || String.eqb t "time without time zone"
  || String.eqb t "timetz"
  || String.eqb t "timestamp"
  || String.eqb t "time".

(** The own properties of the object literal [map] of [humanDataType],
    in the order of the source. *)
Definition humanDataType_map : list (string * string) :=
  [ ("timestamp with time zone", "tstz");
    ("timestamptz", "tstz");
    ("timestamp without time zone", "ts-ntz");
    ("timestamp", "ts-ntz");
    ("time with time zone", "time-tz");
    ("timetz", "time-tz");
    ("time without time zone", "time-ntz");
    ("time", "time-ntz");
    ("character varying", "varchar");
    ("varchar", "varchar");
    ("character", "char");
    ("char", "char");
    ("text", "text");
    ("integer", "int");
    ("int4", "int");
    ("bigint", "bigint");
    ("int8", "bigint");
    ("smallint", "smallint");
    ("int2", "smallint");
    ("numeric", "numeric");
    ("decimal", "decimal");
    ("real", "real");
    ("double precision", "float8");
    ("float8", "float8");
    ("boolean", "bool");
    ("bool", "bool");
    ("uuid", "uuid");
    ("jsonb", "jsonb");
    ("json", "json");
    ("bytea", "bytea");
    ("date", "date");
    ("interval", "interval") ].

Fixpoint assoc (k : string) (l : list (string * string)) : option string :=
  match l with
  | [] => None
  | (k', v) :: rest => if String.eqb k k' then Some v else assoc k rest
  end.

(** What [map[t] ?? dt] and so [humanDataType] can evaluate to.  [map] is
    an object literal, so that [map[t]] also finds the properties it
    inherits from [Object.prototype]; two of them have a name that a
    lower-cased string can be: ["constructor"], the function [Object], and
    ["__proto__"], the prototype object itself. *)
Inductive label : Type :=
| LStr : string -> label
| LObjectFunction : label
| LObjectPrototype : label.

(** [map[t]]: [None] is [undefined]. *)
Definition humanDataType_get (t : string) : option label :=
  match assoc t humanDataType_map with
  | Some v => Some (LStr v)
  | None =>
      if String.eqb t "constructor" then Some LObjectFunction
      else if String.eqb t "__proto__" then Some LObjectPrototype
      else None
  end.

(** [out.length]: [None] is [undefined]. *)
Definition label_length (out : label) : option nat :=
  match out with
  | LStr s => Some (String.length s)
  | LObjectFunction => Some 1%nat
  | LObjectPrototype => None
  end.

Definition humanDataType (dt : string) : label :=
  let t := toLowerCase dt in
  let out :=
    match humanDataType_get t with
    | Some v => v
    | None => LStr dt
    end in
  match out with
  | LStr s => if Nat.ltb 8 (String.length s) then LStr (slice0 8 s) else out
  | _ => out
  end.

(** ** Dates ([Date] of the language, as far as the scripts use it)

    A [Date] holds a time value, a number of milliseconds since the epoch,
    or is invalid ([NaN]): an [option Z].  The language fixes how a string
    in its date-time format is read; every other string is read by
    heuristics of the engine, and a date-time without an offset is in the
    local time zone, which belongs to the host.  Both are fields of an
    [Engine], over which the embedding is parametrised. *)

Record Engine : Type := {
  (** [Date.parse] on a string outside the date-time format *)
  legacy_parse : string -> option Z;
  (** the time value of a local time *)
  local_to_utc : Z -> Z
}.

(** An engine whose local time is UTC and that reads no string outside
    the date-time format; for examples. *)
Definition utc_engine : Engine :=
  {| legacy_parse := fun _ => None; local_to_utc := fun t => t |}.

Module JsDate.

Definition msPerDay : Z := 86400000.

(** The number of days from the epoch to a civil date, and back. *)
Definition doe_of_civil (yoe m d : Z) : Z :=
  let mp := (m + 9) mod 12 in
  let doy := (153 * mp + 2) / 5 + d - 1 in
  yoe * 365 + yoe / 4 - yoe / 100 + doy.

Definition days_from_civil (y m d : Z) : Z :=
  let y' := if m <=? 2 then y - 1 else y in
  let era := y' / 400 in
  let yoe := y' - era * 400 in
  era * 146097 + doe_of_civil yoe m d - 719468.

(** The civil date of day [doe] of a cycle of 400 years that starts on
    the first of March: the year in the cycle, the month and the day. *)
Definition civil_of_doe (doe : Z) : Z * Z * Z :=
  let yoe := (doe - doe / 1460 + doe / 36524 - doe / 146096) / 365 in
  let doy := doe - (365 * yoe + yoe / 4 - yoe / 100) in
  let mp := (5 * doy + 2) / 153 in
  let d := doy - (153 * mp + 2) / 5 + 1 in
  let m := if mp <? 10 then mp + 3 else mp - 9 in
  (if m <=? 2 then yoe + 1 else yoe, m, d).

Definition civil_from_days (z : Z) : Z * Z * Z :=
  let z' := z + 719468 in
  let era := z' / 146097 in
  let doe := z' - era * 146097 in
  let '(y, m, d) := civil_of_doe doe in
  (y + era * 400, m, d).

(** [p] holds of the [n] numbers from [z] on. *)
Fixpoint all_from (n : nat) (z : Z) (p : Z -> bool) : bool :=
  match n with
  | O => true
  | S k => if p z then all_from k (z + 1) p else false
  end.

Definition is_leap (y : Z) : bool :=
  (y mod 4 =? 0) && (negb (y mod 100 =? 0) || (y mod 400 =? 0)).

Definition days_in_month (y m : Z) : Z :=
  if m =? 2 then (if is_leap y then 29 else 28)
  else if (m =? 4) || (m =? 6) || (m =? 9) || (m =? 11) then 30
  else 31.


Definition civil_round_trip (k : Z) : bool :=
  let yoe := k / 372 in
  let m := (k mod 372) / 31 + 1 in
  let d := k mod 31 + 1 in
  let y := if m <=? 2 then yoe + 1 else yoe in
  if d <=? days_in_month y m then
    let doe := doe_of_civil yoe m d in
    (0 <=? doe) && (doe <? 146097)
    && (let '(y2, m2, d2) := civil_of_doe doe in
        (y2 =? y) && (m2 =? m) && (d2 =? d))
  else true.

(** [getUTCFullYear], [getUTCMonth] (from zero), [getUTCHours] and
    [getUTCMinutes] of a valid date. *)
Definition getUTCFullYear (t : Z) : Z :=
  let '(y, _, _) := civil_from_days (t / msPerDay) in y.

Definition getUTCMonth (t : Z) : Z :=
  let '(_, m, _) := civil_from_days (t / msPerDay) in m - 1.

Definition getUTCHours (t : Z) : Z := (t / 3600000) mod 24.

Definition getUTCMinutes (t : Z) : Z := (t / 60000) mod 60.

(** *** The date-time string format *)

Definition digit_of (c : ascii) : option Z :=
  if is_digit c then Some (Z.of_nat (nat_of_ascii c) - 48) else None.

(** Exactly [n] digits, and the rest of the text. *)
Fixpoint read_digits (n : nat) (acc : Z) (s : string) : option (Z * string) :=
  match n with
  | O => Some (acc, s)
  | S k =>
      match s with
      | String c rest =>
          match digit_of c with
          | Some v => read_digits k (acc * 10 + v) rest
          | None => None
          end
      | EmptyString => None
      end
  end.

(** Four digits, or a sign and six digits other than minus zero. *)
Definition read_year (s : string) : option (Z * string) :=
  match s with
  | String "+" r => read_digits 6 0 r
  | String "-" r =>
      match read_digits 6 0 r with
      | Some (y, r') => if y =? 0 then None else Some (- y, r')
      | None => None
      end
  | _ => read_digits 4 0 s
  end.

(** The optional [-MM] and [-DD] of a date; a missing field is 1. *)
Definition read_month_day (s : string) : option (Z * Z * string) :=
  match s with
  | String "-" r =>
      match read_digits 2 0 r with
      | Some (m, String "-" r2) =>
          match read_digits 2 0 r2 with
          | Some (d, r3) => Some (m, d, r3)
          | None => None
          end
      | Some (m, r') => Some (m, 1, r')
      | None => None
      end
  | _ => Some (1, 1, s)
  end.

(** [HH:mm], [HH:mm:ss] or [HH:mm:ss.sss], in milliseconds. *)
Definition read_time (s : string) : option (Z * string) :=
  match read_digits 2 0 s with
  | Some (h, String ":" r1) =>
      match read_digits 2 0 r1 with
      | Some (mi, r2) =>
          let '(sec, ms, r4) :=
            match r2 with
            | String ":" r3 =>
                match read_digits 2 0 r3 with
                | Some (sec, String "." r5) =>
                    match read_digits 3 0 r5 with
                    | Some (ms, r6) => (sec, ms, r6)
                    | None => (-1, 0, r2)
                    end
                | Some (sec, r5) => (sec, 0, r5)
                | None => (-1, 0, r2)
                end
            | _ => (0, 0, r2)
            end in
          if (0 <=? sec) && (sec <=? 59) && (mi <=? 59)
             && ((h <=? 23) || ((h =? 24) && (mi =? 0) && (sec =? 0) && (ms =? 0)))
          then Some (((h * 60 + mi) * 60 + sec) * 1000 + ms, r4)
          else None
      | None => None
      end
  | _ => None
  end.

(** The end of a date-time: nothing (local time), [Z], or [+HH:mm] or
    [-HH:mm]; the offset in milliseconds. *)
Definition read_offset (s : string) : option (option Z) :=
  match s with
  | EmptyString => Some None
  | String "Z" EmptyString => Some (Some 0)
  | String sg r =>
      if Ascii.eqb sg "+" || Ascii.eqb sg "-" then
        match read_digits 2 0 r with
        | Some (h, String ":" r1) =>
            match read_digits 2 0 r1 with
            | Some (mi, EmptyString) =>
                if (h <=? 23) && (mi <=? 59) then
                  let off := (h * 60 + mi) * 60000 in
                  Some (Some (if Ascii.eqb sg "-" then - off else off))
                else None
            | _ => None
            end
        | _ => None
        end
      else None
  end.

Section Parse.

Variable engine : Engine.

(** The time value of a string in the date-time format with all its
    fields in range; [None] when the string is not such a string. *)
Definition iso_parse (s : string) : option Z :=
  match read_year s with
  | Some (y, r) =>
      match read_month_day r with
      | Some (m, d, r') =>
          if (1 <=? m) && (m <=? 12) && (1 <=? d) && (d <=? days_in_month y m)
          then
            let day := days_from_civil y m d in
            match r' with
            | EmptyString => Some (day * msPerDay)
            | String "T" r'' =>
                match read_time r'' with
                | Some (ms, r3) =>
                    match read_offset r3 with
                    | Some None =>
                        Some (local_to_utc engine (day * msPerDay + ms))
                    | Some (Some off) => Some (day * msPerDay + ms - off)
                    | None => None
                    end
                | None => None
                end
            | _ => None
            end
          else None
      | None => None
      end
  | None => None
  end.

Definition TimeClip (t : Z) : option Z :=
  if Z.abs t <=? 8640000000000000 then Some t else None.

(** [new Date(s)] for a string [s]. *)
Definition Date_of_string (s : string) : option Z :=
  match iso_parse s with
  | Some t => TimeClip t
  | None =>
      match legacy_parse engine s with
      | Some t => TimeClip t
      | None => None
      end
  end.

End Parse.

End JsDate.

(** ** Temporal ranges ([listTables.tsx]) *)

(** The text of a date of the years 0 to 9999 in the date-time format,
    as the database writes a [date]: [YYYY-MM-DD]. *)
Definition digit_char (k : Z) : ascii := ascii_of_nat (Z.to_nat (48 + k)).

Definition pad2 (n : Z) : string :=
  String (digit_char (n / 10)) (String (digit_char (n mod 10)) EmptyString).

Definition pad4 (n : Z) : string :=
  String (digit_char (n / 1000))
    (String (digit_char (n / 100 mod 10)) (pad2 (n mod 100))).

Definition iso_date (y m d : Z) : string :=
  pad4 y ++ "-" ++ pad2 m ++ "-" ++ pad2 d.

Fixpoint digits_or_dashes (s : string) : bool :=
  match s with
  | EmptyString => true
  | String c rest =>
      (is_digit c || Ascii.eqb c "-") && digits_or_dashes rest
  end.

Definition valid_date (y m d : Z) : Prop :=
  0 <= y <= 9999 /\ 1 <= m <= 12 /\ 1 <= d <= JsDate.days_in_month y m.

(** Years of four digits print as their four digits. *)
Definition year_prints_4 (k : Z) : bool :=
  String.eqb (BigInt.toString (1000 + k)) (pad4 (1000 + k)).

Definition months : list string :=
  ["Jan"; "Feb"; "Mar"; "Apr"; "May"; "Jun";
   "Jul"; "Aug"; "Sep"; "Oct"; "Nov"; "Dec"].

(** [s.padStart(2, "0")] *)
Definition padStart2 (s : string) : string :=
  repeat_char "0"%char (2 - String.length s) ++ s.

Definition rev_string (s : string) : string :=
  string_of_list_ascii (rev (list_ascii_of_string s)).

(** [/Z|[+-]\d{2}:?\d{2}$/.test(s)] *)
Definition has_zone (s : string) : bool :=
  includes_char "Z" s
  || match rev_string s with
     | String d4 (String d3 r) =>
         is_digit d4 && is_digit d3
         && match (match r with String ":" r0 => r0 | _ => r end) with
            | String d2 (String d1 (String sg _)) =>
                is_digit d2 && is_digit d1
                && (Ascii.eqb sg "+" || Ascii.eqb sg "-")
            | _ => false
            end
     | _ => false
     end.

(** [s.split("T")[1]] for a string that includes ["T"]. *)
Definition after_first_T (s : string) : string :=
  match split_at "T" s with
  | Some (_, rest) =>
      match split_at "T" rest with
      | Some (part, _) => part
      | None => rest
      end
  | None => s
  end.

Section Temporal.

Variable engine : Engine.

(** [null] is [None].  The [try] of the source guards a call on a string,
    which does not throw. *)
Definition safeParseDateLike (s : string) : option Z :=
  let normalized :=
    if includes_char "T" s then s else replace_first_char " " "T" s in
  JsDate.Date_of_string engine normalized.

Definition parseTimeOnly (s : string) : option Z :=
  let timePart := if includes_char "T" s then after_first_T s else s in
  let base := "1970-01-01T" ++ timePart in
  let withZ := if has_zone base then base else base ++ "Z" in
  JsDate.Date_of_string engine withZ.

Definition fmtMonthYear (d : Z) : string :=
  nth (Z.to_nat (JsDate.getUTCMonth d)) months "undefined"
  ++ " " ++ BigInt.toString (JsDate.getUTCFullYear d).

Definition fmtHHMM (d : Z) : string :=
  let hh := padStart2 (BigInt.toString (JsDate.getUTCHours d)) in
  let mm := padStart2 (BigInt.toString (JsDate.getUTCMinutes d)) in
  hh ++ ":" ++ mm.

Definition isTimeOnly (dt : string) : bool :=
  let t := toLowerCase dt in
  startsWith "time " t || String.eqb t "time" || String.eqb t "timetz".

Definition formatTemporalRange (minStr maxStr dt : string) : option string :=
  if isTimeOnly dt then
    match parseTimeOnly minStr, parseTimeOnly maxStr with
    | Some d1, Some d2 => Some (fmtHHMM d1 ++ "-" ++ fmtHHMM d2)
    | _, _ => None
    end
  else
    match safeParseDateLike minStr, safeParseDateLike maxStr with
    | Some d1, Some d2 => Some (fmtMonthYear d1 ++ "-" ++ fmtMonthYear d2)
    | _, _ => None
    end.

End Temporal.

(** ** Records of the scripts *)

Module TableInfo.
Record t : Type := mk {
  table_schema : string;
  table_name : string;
  column_count : Z;
  estimated_rows : Z
}.
End TableInfo.

(** The [ColumnInfo] of [listTables.tsx].  The one of [listTables.ts] has
    the first two fields only: it is a record whose four other fields are
    [Undefined]. *)
Module ColumnInfo.
Record t : Type := mk {
  column_name : string;
  data_type : string;
  min : nullable string;
  max : nullable string;
  true_count : nullable string;
  false_count : nullable string
}.
End ColumnInfo.

Module TableView.
Record t : Type := mk {
  table_schema : string;
  table_name : string;
  column_count : Z;
  columns : list ColumnInfo.t;
  estimated_rows : nullable Z;
  exact_rows : nullable Z
}.
End TableView.

Inductive Mode : Type := estimated | exact.

(** ** The database

    The catalog relations the scripts read, with the columns they read;
    the answers to the statements they build, by the text of the
    statement; and the failures of [client.connect], of [client.end] and
    of the four catalog statements. *)

Module PgClass.
Record t : Type := mk {
  relname : string;
  relnamespace : Z;
  relkind : ascii;
  (** [reltuples::bigint] *)
  reltuples : Z
}.
End PgClass.

Module PgNamespace.
Record t : Type := mk {
  oid : Z;
  nspname : string
}.
End PgNamespace.

(** A row of [information_schema.columns]. *)
Module Columns.
Record t : Type := mk {
  table_schema : string;
  table_name : string;
  column_name : string;
  data_type : string;
  ordinal_position : Z
}.
End Columns.

(** Rows of the answers: [None] is the [NULL] of the database, the
    [null] of the script. *)
Module RangeRow.
Record t : Type := mk { min : option string; max : option string }.
End RangeRow.

Module HistRow.
Record t : Type := mk { t_ : string; f : string }.
End HistRow.

Module CountRow.
Record t : Type := mk { count : string }.
End CountRow.

Inductive CatalogQuery : Type :=
| QEstimatedTables
| QColumns
| QNumericColumns
| QBooleanColumns.

Record Database : Type := {
  pg_class : list PgClass.t;
  pg_namespace : list PgNamespace.t;
  information_schema_columns : list Columns.t;
  connect_error : option string;
  end_error : option string;
  catalog_error : CatalogQuery -> option string;
  select_range : string -> result (list RangeRow.t);
  select_histogram : string -> result (list HistRow.t);
  select_count : string -> result (list CountRow.t)
}.

(** *** The statements over the catalog *)

Fixpoint insert_by {A : Type} (le : A -> A -> bool) (x : A) (l : list A)
  : list A :=
  match l with
  | [] => [x]
  | y :: rest => if le x y then x :: l else y :: insert_by le x rest
  end.

(** [ORDER BY]: a stable sort. *)
Definition sort_by {A : Type} (le : A -> A -> bool) (l : list A) : list A :=
  fold_right (insert_by le) [] l.

(** Order on a pair of keys, the first one being text. *)
Definition lex_le (a1 b1 : string) (rest : bool) : bool :=
  match String.compare a1 b1 with
  | Lt => true
  | Eq => rest
  | Gt => false
  end.

(** [s NOT IN ('pg_catalog', 'information_schema')] *)
Definition user_schema (s : string) : bool :=
  negb (String.eqb s "pg_catalog" || String.eqb s "information_schema").

(** [GREATEST(x, 0)] *)
Definition GREATEST0 (x : Z) : Z := Z.max x 0.

(** The [column_count] of the tables query: the count of the group of
    the table in [cols], and 0, by [COALESCE], for a table without one. *)
Definition cols_count (db : Database) (schema name : string) : Z :=
  Z.of_nat
    (List.length
       (List.filter
          (fun c => String.eqb (Columns.table_schema c) schema
                    && String.eqb (Columns.table_name c) name)
          (information_schema_columns db))).

(** The rows of the statement of [fetchEstimatedTables]. *)
Definition select_estimated_tables (db : Database) : list TableInfo.t :=
  let joined :=
    flat_map
      (fun c =>
         flat_map
           (fun n =>
              if PgNamespace.oid n =? PgClass.relnamespace c
              then [(c, n)] else [])
           (pg_namespace db))
      (pg_class db) in
  let kept :=
    List.filter
      (fun cn =>
         Ascii.eqb (PgClass.relkind (fst cn)) "r"
         && user_schema (PgNamespace.nspname (snd cn)))
      joined in
  let rows :=
    List.map
      (fun cn =>
         let schema := PgNamespace.nspname (snd cn) in
         let name := PgClass.relname (fst cn) in
         TableInfo.mk schema name (cols_count db schema name)
           (GREATEST0 (PgClass.reltuples (fst cn))))
      kept in
  sort_by
    (fun a b =>
       lex_le (TableInfo.table_schema a) (TableInfo.table_schema b)
         (String.leb (TableInfo.table_name a) (TableInfo.table_name b)))
    rows.

(** The rows of the statement of [fetchColumnsByTable]. *)
Definition select_columns (db : Database) : list Columns.t :=
  sort_by
    (fun a b =>
       lex_le (Columns.table_schema a) (Columns.table_schema b)
         (lex_le (Columns.table_name a) (Columns.table_name b)
            (Columns.ordinal_position a <=? Columns.ordinal_position b)))
    (List.filter (fun c => user_schema (Columns.table_schema c))
       (information_schema_columns db)).

Definition by_column_name (a b : Columns.t) : bool :=
  lex_le (Columns.table_schema a) (Columns.table_schema b)
    (lex_le (Columns.table_name a) (Columns.table_name b)
       (String.leb (Columns.column_name a) (Columns.column_name b))).

Definition one_of (l : list string) (s : string) : bool :=
  existsb (String.eqb s) l.

(** The rows of the first statement of [fetchNumericRanges]. *)
Definition select_numeric_columns (db : Database) : list Columns.t :=
  sort_by by_column_name
    (List.filter
       (fun c =>
          user_schema (Columns.table_schema c)
          && (one_of ["numeric"; "smallint"; "integer"; "bigint"; "decimal";
                      "real"; "double precision"] (Columns.data_type c)
              || one_of ["date"; "timestamp with time zone";
                         "timestamp without time zone";
                         "time with time zone"; "time without time zone"]
                   (Columns.data_type c)))
       (information_schema_columns db)).

(** The rows of the first statement of [fetchBooleanHistograms]. *)
Definition select_boolean_columns (db : Database) : list Columns.t :=
  sort_by by_column_name
    (List.filter
       (fun c =>
          user_schema (Columns.table_schema c)
          && String.eqb (Columns.data_type c) "boolean")
       (information_schema_columns db)).

(** [client.query] on a catalog statement. *)
Definition catalog_query {A : Type} (db : Database) (q : CatalogQuery)
  (rows : list A) : result (list A) :=
  match catalog_error db q with
  | Some e => Throw e
  | None => Ok rows
  end.

(** ** What both scripts share (the same text in both) *)

(** The dash of the heading and of the line of a table; its bytes stand
    for its one code unit. *)
Definition em_dash : string := "—".

(** [`${schema}.${name}`], the key of a table. *)
Definition table_key (schema name : string) : string :=
  schema ++ "." ++ name.

(** [process.argv.slice(2)] parsed: the flags and the options.  An
    argument that starts with two dashes is split at its equal signs; it
    is a flag when it has none, else an option whose value is the text
    between the first and the second one. *)
Definition parseArgs (argv : list string)
  : list string * list (string * string) :=
  fold_left
    (fun '(flags, options) arg =>
       if startsWith "--" arg then
         match split_at "=" arg with
         | None => ((flags ++ [arg])%list, options)
         | Some (k, rest) =>
             let v := match split_at "=" rest with
                      | Some (v, _) => v
                      | None => rest
                      end in
             (flags, (options ++ [(k, v)])%list)
         end
       else (flags, options))
    argv ([], []).

(** [flags.has(f)] *)
Definition has_flag (flags : list string) (f : string) : bool :=
  existsb (String.eqb f) flags.

Definition fetchEstimatedTables (db : Database) : result (list TableInfo.t) :=
  catalog_query db QEstimatedTables (select_estimated_tables db).

(** [columnsByTable.get(key) ?? []] *)
Definition columns_of (columnsByTable : gmap string (list ColumnInfo.t))
  (schema name : string) : list ColumnInfo.t :=
  match columnsByTable !! table_key schema name with
  | Some cols => cols
  | None => []
  end.

Definition buildEstimatedView (estimated_ : list TableInfo.t)
  (columnsByTable : gmap string (list ColumnInfo.t)) : list TableView.t :=
  List.map
    (fun t =>
       TableView.mk
         (TableInfo.table_schema t)
         (TableInfo.table_name t)
         (TableInfo.column_count t)
         (columns_of columnsByTable
            (TableInfo.table_schema t) (TableInfo.table_name t))
         (Val (TableInfo.estimated_rows t))
         Undefined)
    estimated_.

Definition countSql (t : TableInfo.t) : string :=
  "SELECT COUNT(*)::bigint AS count FROM "
  ++ quoteIdent (TableInfo.table_schema t) ++ "."
  ++ quoteIdent (TableInfo.table_name t).

(** The [exact] of one turn of the loop of [buildExactView]: the count,
    or [null] when anything in the [try] block throws: the statement,
    the access to the first row, or [BigInt]. *)
Definition exact_count (db : Database) (t : TableInfo.t) : nullable Z :=
  try_catch
    (let* rows := select_count db (countSql t) in
     match rows with
     | r :: _ =>
         let* n := BigInt.BigInt (CountRow.count r) in Ok (Val n)
     | [] => Throw "TypeError"
     end)
    Null.

(** The view pushed by one turn of the loop of [buildExactView]. *)
Definition exact_view (db : Database)
  (columnsByTable : gmap string (list ColumnInfo.t)) (t : TableInfo.t)
  : TableView.t :=
  TableView.mk
    (TableInfo.table_schema t)
    (TableInfo.table_name t)
    (TableInfo.column_count t)
    (columns_of columnsByTable
       (TableInfo.table_schema t) (TableInfo.table_name t))
    Undefined
    (exact_count db t).

Definition buildExactView (db : Database) (estimated_ : list TableInfo.t)
  (columnsByTable : gmap string (list ColumnInfo.t)) : list TableView.t :=
  fold_left
    (fun views t => (views ++ [exact_view db columnsByTable t])%list)
    estimated_ [].

(** [x?.toString() ?? "0"] *)
Definition toString_or_0 (x : nullable Z) : string :=
  match x with
  | Val z => BigInt.toString z
  | _ => "0"
  end.

(** The [countLabel] of [listTables.ts], the [countLabelFor] of
    [listTables.tsx]. *)
Definition countLabelFor (mode : Mode) (v : TableView.t) : string :=
  match mode with
  | estimated => "~" ++ toString_or_0 (TableView.estimated_rows v)
  | exact =>
      match TableView.exact_rows v with
      | Null => "error"
      | x => toString_or_0 x
      end
  end.

Definition header (mode : Mode) : string :=
  match mode with
  | estimated =>
      "Tables (schema.table) " ++ em_dash ++ " ~rows (estimated), columns:"
  | exact => "Tables (schema.table) " ++ em_dash ++ " rows (exact), columns:"
  end.

(** What a run leaves behind: the lines written by [console.log], the
    tree handed to the terminal renderer, the lines written by
    [console.error], and the exit code. *)
Record Output (Screen : Type) : Type := {
  stdout : list string;
  screen : option Screen;
  stderr : list string;
  exitCode : Z
}.
Arguments stdout {Screen} _.
Arguments screen {Screen} _.
Arguments stderr {Screen} _.
Arguments exitCode {Screen} _.

(** The handler of the last line of both scripts. *)
Definition failed {Screen : Type} (err : string) : Output Screen :=
  {| stdout := []; screen := None;
     stderr := ["Failed to list tables: " ++ err]; exitCode := 1 |}.

(** [try { run } finally { await client.end() }] under that handler: a
    failure of [client.end] replaces the outcome of the run, after what
    the run has written. *)
Definition finally_end {Screen : Type} (db : Database)
  (run : result (Output Screen)) : Output Screen :=
  match end_error db with
  | Some e =>
      match run with
      | Ok out =>
          {| stdout := stdout out; screen := screen out;
             stderr := ["Failed to list tables: " ++ e]; exitCode := 1 |}
      | Throw _ => failed e
      end
  | None =>
      match run with
      | Ok out => out
      | Throw e => failed e
      end
  end.

(** Appending to the array of a key in [byTable], made on first use:
    [if (!byTable.has(key)) byTable.set(key, []); byTable.get(key).push(c)]. *)
Definition push_column (byTable : gmap string (list ColumnInfo.t))
  (key : string) (c : ColumnInfo.t) : gmap string (list ColumnInfo.t) :=
  <[key := (match byTable !! key with
            | Some cols => cols
            | None => []
            end ++ [c])%list]> byTable.

Definition nl : string := String "010"%char EmptyString.

(** ** What a rendering shows

    The content of a rendering, apart from its presentation: the
    heading; for each table its schema, its name, its row-count label
    and its number of columns; for each column its name, its type, its
    range and its values, the last two empty when nothing is shown.
    Each renderer is the layout of its content ([Plain.layout],
    [Ink.layout]). *)

Record ColumnContent : Type := {
  shown_name : string;
  shown_type : string;
  shown_range : string;
  shown_values : string
}.

Record TableContent : Type := {
  shown_schema : string;
  shown_table : string;
  shown_count : string;
  shown_cols : string;
  shown_columns : list ColumnContent
}.

Record Content : Type := {
  shown_heading : string;
  shown_tables : list TableContent
}.

(** What two contents share when they differ in the type, range and
    values of the columns only. *)
Definition outline (c : Content)
  : string * list (string * string * string * string * list string) :=
  (shown_heading c,
   List.map
     (fun t =>
        (shown_schema t, shown_table t, shown_count t, shown_cols t,
         List.map shown_name (shown_columns t)))
     (shown_tables c)).

(** [sub] occurs in [s]. *)
Fixpoint occurs (sub s : string) : bool :=
  String.prefix sub s
  || match s with
     | EmptyString => false
     | String _ rest => occurs sub rest
     end.

(** ** The plain script, [listTables.ts] *)

Module Plain.

Definition fetchColumnsByTable (db : Database)
  : result (gmap string (list ColumnInfo.t)) :=
  let* rows := catalog_query db QColumns (select_columns db) in
  Ok (fold_left
        (fun byTable r =>
           push_column byTable
             (table_key (Columns.table_schema r) (Columns.table_name r))
             (ColumnInfo.mk (Columns.column_name r) (Columns.data_type r)
                Undefined Undefined Undefined Undefined))
        rows ∅).

(** The lines [printColumns] writes. *)
Definition printColumns (columns : list ColumnInfo.t) : list string :=
  match columns with
  | [] => []
  | _ =>
      let maxName :=
        max_list
          (List.map (fun c => String.length (ColumnInfo.column_name c))
             columns) in
      "  columns:"
      :: List.map
           (fun c =>
              let namePadded := padEnd maxName (ColumnInfo.column_name c) in
              "  " ++ namePadded ++ "  " ++ ColumnInfo.data_type c)
           columns
  end.

(** The line of a table. *)
Definition table_line (mode : Mode) (v : TableView.t) : string :=
  nl ++ "- " ++ TableView.table_schema v ++ "." ++ TableView.table_name v
  ++ " " ++ em_dash ++ " " ++ countLabelFor mode v ++ " rows, "
  ++ BigInt.toString (TableView.column_count v) ++ " cols" ++ nl.

(** The lines [renderTables] writes. *)
Definition renderTables (views : list TableView.t) (mode : Mode)
  : list string :=
  header mode
  :: flat_map
       (fun v => table_line mode v :: printColumns (TableView.columns v))
       views.

(** The content of the rendering, and its layout in lines. *)
Definition content (views : list TableView.t) (mode : Mode) : Content :=
  {| shown_heading := header mode;
     shown_tables :=
       List.map
         (fun v =>
            {| shown_schema := TableView.table_schema v;
               shown_table := TableView.table_name v;
               shown_count := countLabelFor mode v;
               shown_cols := BigInt.toString (TableView.column_count v);
               shown_columns :=
                 List.map
                   (fun c =>
                      {| shown_name := ColumnInfo.column_name c;
                         shown_type := ColumnInfo.data_type c;
                         shown_range := EmptyString;
                         shown_values := EmptyString |})
                   (TableView.columns v) |})
         views |}.

Definition layout_columns (columns : list ColumnContent) : list string :=
  match columns with
  | [] => []
  | _ =>
      let maxName :=
        max_list (List.map (fun c => String.length (shown_name c)) columns) in
      "  columns:"
      :: List.map
           (fun c =>
              "  " ++ padEnd maxName (shown_name c) ++ "  " ++ shown_type c)
           columns
  end.

Definition layout (c : Content) : list string :=
  shown_heading c
  :: flat_map
       (fun t =>
          (nl ++ "- " ++ shown_schema t ++ "." ++ shown_table t
           ++ " " ++ em_dash ++ " " ++ shown_count t ++ " rows, "
           ++ shown_cols t ++ " cols" ++ nl)
          :: layout_columns (shown_columns t))
       (shown_tables c).

Definition listTables (db : Database) (argv : list string) : Output unit :=
  match connect_error db with
  | Some e => failed e
  | None =>
      finally_end db
        (let* estimated_ := fetchEstimatedTables db in
         let* columnsByTable := fetchColumnsByTable db in
         let lines :=
           match estimated_ with
           | [] => ["No tables found."]
           | _ =>
               let '(flags, _) := parseArgs argv in
               let wantExact := has_flag flags "--exact" in
               if negb wantExact then
                 renderTables
                   (buildEstimatedView estimated_ columnsByTable) estimated
               else
                 renderTables
                   (buildExactView db estimated_ columnsByTable) exact
           end in
         Ok {| stdout := lines; screen := None; stderr := [];
               exitCode := 0 |})
  end.

End Plain.

(** ** The decorated script, [listTables.tsx] *)

Module Ink.

(** *** Elements of the terminal layout *)

Record BoxProps : Type := {
  box_key : option string;
  flexDirection : string;
  marginTop : Z;
  padding : Z;
  paddingBottom : Z;
  borderStyle : option string;
  borderColor : option string
}.

Record TextProps : Type := {
  text_key : option string;
  color : option string;
  bold : bool
}.

#[local] Unset Elimination Schemes.
Inductive Element : Type :=
| Box : BoxProps -> list Element -> Element
| Text : TextProps -> list Element -> Element
| Lit : string -> Element.
#[local] Set Elimination Schemes.

Definition plain_text : TextProps :=
  {| text_key := None; color := None; bold := false |}.

Definition colored (c : string) (b : bool) : TextProps :=
  {| text_key := None; color := Some c; bold := b |}.

(** The text of an element, left to right. *)
Fixpoint text_of (e : Element) : string :=
  match e with
  | Box _ children => String.concat EmptyString (List.map text_of children)
  | Text _ children => String.concat EmptyString (List.map text_of children)
  | Lit s => s
  end.

(** *** Statistics collector *)

Definition column_key (col : Columns.t) : string :=
  Columns.table_schema col ++ "." ++ Columns.table_name col
  ++ "." ++ Columns.column_name col.

Definition range_sql (col : Columns.t) : string :=
  "SELECT MIN(" ++ quoteIdent (Columns.column_name col) ++ ")::text AS min,"
  ++ nl ++ "                MAX(" ++ quoteIdent (Columns.column_name col)
  ++ ")::text AS max" ++ nl ++ "         FROM "
  ++ quoteIdent (Columns.table_schema col) ++ "."
  ++ quoteIdent (Columns.table_name col).

(** [rows[0]?.f ?? null] *)
Definition first_or_null {R : Type} (f : R -> option string) (rows : list R)
  : option string :=
  match rows with
  | r :: _ => f r
  | [] => None
  end.

Definition unavailable_range : RangeRow.t := RangeRow.mk None None.

(** One turn of the loop of [fetchNumericRanges]. *)
Definition range_step (db : Database) (ranges : gmap string RangeRow.t)
  (col : Columns.t) : gmap string RangeRow.t :=
  let key := column_key col in
  match select_range db (range_sql col) with
  | Ok rows =>
      <[key := RangeRow.mk (first_or_null RangeRow.min rows)
                 (first_or_null RangeRow.max rows)]> ranges
  | Throw _ => <[key := unavailable_range]> ranges
  end.

(** What the turn of a column records, whichever branch records it. *)
Definition range_entry (db : Database) (col : Columns.t) : RangeRow.t :=
  match select_range db (range_sql col) with
  | Ok rows =>
      RangeRow.mk (first_or_null RangeRow.min rows)
        (first_or_null RangeRow.max rows)
  | Throw _ => unavailable_range
  end.

Definition fetchNumericRanges (db : Database)
  : result (gmap string RangeRow.t) :=
  let* numericCols :=
    catalog_query db QNumericColumns (select_numeric_columns db) in
  Ok (fold_left (range_step db) numericCols ∅).

(** An entry of the map of [fetchBooleanHistograms]. *)
Record Histogram : Type := {
  hist_true_count : option string;
  hist_false_count : option string
}.

Definition hist_sql (col : Columns.t) : string :=
  "SELECT " ++ nl
  ++ "          COUNT(*) FILTER (WHERE " ++ quoteIdent (Columns.column_name col)
  ++ " IS TRUE)::bigint AS t," ++ nl
  ++ "          COUNT(*) FILTER (WHERE " ++ quoteIdent (Columns.column_name col)
  ++ " IS FALSE)::bigint AS f" ++ nl
  ++ "        FROM " ++ quoteIdent (Columns.table_schema col) ++ "."
  ++ quoteIdent (Columns.table_name col).

Definition unavailable_histogram : Histogram :=
  {| hist_true_count := None; hist_false_count := None |}.

(** One turn of the loop of [fetchBooleanHistograms]. *)
Definition hist_step (db : Database) (hist : gmap string Histogram)
  (col : Columns.t) : gmap string Histogram :=
  let key := column_key col in
  match select_histogram db (hist_sql col) with
  | Ok rows =>
      <[key := {| hist_true_count :=
                    first_or_null (fun r => Some (HistRow.t_ r)) rows;
                  hist_false_count :=
                    first_or_null (fun r => Some (HistRow.f r)) rows |}]> hist
  | Throw _ => <[key := unavailable_histogram]> hist
  end.


Definition fetchBooleanHistograms (db : Database)
  : result (gmap string Histogram) :=
  let* booleanCols :=
    catalog_query db QBooleanColumns (select_boolean_columns db) in
  Ok (fold_left (hist_step db) booleanCols ∅).

(** [string | null] as a field of a record of the script. *)
Definition of_db (x : option string) : nullable string :=
  match x with
  | Some s => Val s
  | None => Null
  end.

Definition fetchColumnsByTable (db : Database)
  : result (gmap string (list ColumnInfo.t)) :=
  let* rows := catalog_query db QColumns (select_columns db) in
  let* ranges := fetchNumericRanges db in
  let* boolHist := fetchBooleanHistograms db in
  Ok (fold_left
        (fun byTable r =>
           let range := ranges !! column_key r in
           let hist := boolHist !! column_key r in
           push_column byTable
             (table_key (Columns.table_schema r) (Columns.table_name r))
             (ColumnInfo.mk (Columns.column_name r) (Columns.data_type r)
                (* range?.min, range?.max *)
                (match range with
                 | Some e => of_db (RangeRow.min e)
                 | None => Undefined
                 end)
                (match range with
                 | Some e => of_db (RangeRow.max e)
                 | None => Undefined
                 end)
                (* boolHist.get(key)?.true_count ?? null *)
                (match hist with
                 | Some h => of_db (hist_true_count h)
                 | None => Null
                 end)
                (match hist with
                 | Some h => of_db (hist_false_count h)
                 | None => Null
                 end)))
        rows ∅).

(** [`${x}`] *)
Definition template (x : nullable string) : string :=
  match x with
  | Val s => s
  | Null => "null"
  | Undefined => "undefined"
  end.

(** The object [{ name, typeLabel, range, values }] of a column. *)
Record Row : Type := {
  name : string;
  typeLabel : label;
  range : string;
  values : string
}.

(** [mapM] of the result monad: the first throw wins. *)
Fixpoint traverse {A B : Type} (f : A -> result B) (l : list A)
  : result (list B) :=
  match l with
  | [] => Ok []
  | a :: rest =>
      let* b := f a in
      let* bs := traverse f rest in
      Ok (b :: bs)
  end.

Section Render.

Variable engine : Engine.

(** [formatTemporalRange(c.min!, c.max!, c.data_type)] where neither bound
    is [null].  The [!] checks nothing: a bound may be [undefined], on
    which [includes] throws a [TypeError]; [safeParseDateLike] catches it
    and returns [null], [parseTimeOnly] does not. *)
Definition formatTemporalRange_call (mn mx : nullable string) (dt : string)
  : result (option string) :=
  match mn, mx with
  | Val a, Val b => Ok (formatTemporalRange engine a b dt)
  | _, _ => if isTimeOnly dt then Throw "TypeError" else Ok None
  end.

(** The body of [v.columns.map((c) => ...)].  [booleanPercents] is called
    on the text of each count: on [undefined], [BigInt] throws as it does
    on the text ["undefined"], and the count is zero in both cases. *)
Definition column_row (c : ColumnInfo.t) : result Row :=
  let dt := ColumnInfo.data_type c in
  let typeLabel := humanDataType dt in
  let* range :=
    if isNumericDataType dt
       && not_null (ColumnInfo.min c) && not_null (ColumnInfo.max c)
    then Ok (template (ColumnInfo.min c) ++ "-" ++ template (ColumnInfo.max c))
    else if isTemporalDataType dt
            && not_null (ColumnInfo.min c) && not_null (ColumnInfo.max c)
    then
      let* fr :=
        formatTemporalRange_call (ColumnInfo.min c) (ColumnInfo.max c) dt in
      Ok (match fr with Some s => s | None => EmptyString end)
    else Ok EmptyString in
  let values :=
    if isBooleanDataType dt
       && not_null (ColumnInfo.true_count c)
       && not_null (ColumnInfo.false_count c)
    then
      let '(tp, fp) :=
        booleanPercents (template (ColumnInfo.true_count c))
          (template (ColumnInfo.false_count c)) in
      "Yes " ++ template (ColumnInfo.true_count c) ++ " (" ++ tp
      ++ ") | No " ++ template (ColumnInfo.false_count c) ++ " (" ++ fp ++ ")"
    else EmptyString in
  Ok {| name := ColumnInfo.column_name c; typeLabel := typeLabel;
        range := range; values := values |}.

Definition sep : Element := Text plain_text [Lit "  "].

(** [r.typeLabel.padEnd(typeW, " ")]: a label that is not a string has no
    [padEnd]. *)
Definition label_padEnd (n : nat) (l : label) : result string :=
  match l with
  | LStr s => Ok (padEnd n s)
  | _ => Throw "TypeError"
  end.

(** The [<Text key={r.name}>] of a row. *)
Definition row_element (nameW typeW rangeW : nat) (r : Row) : result Element :=
  let* typeCell := label_padEnd typeW (typeLabel r) in
  Ok (Text {| text_key := Some (name r); color := None; bold := false |}
        ([ Text (colored "green" false) [Lit (padEnd nameW (name r))];
           sep;
           Text (colored "gray" false) [Lit typeCell];
           sep;
           (if String.eqb (range r) EmptyString then
              Text plain_text [Lit (padEnd rangeW EmptyString)]
            else Text (colored "yellow" false) [Lit (padEnd rangeW (range r))]);
           sep ]
         ++ (if String.eqb (values r) EmptyString then []
             else [Text (colored "yellow" false) [Lit (values r)]]))%list).

(** The box of the columns of a table that has columns. *)
Definition columns_box (columns : list ColumnInfo.t) : result Element :=
  let* rows := traverse column_row columns in
  let nameW := max_list (List.map (fun r => String.length (name r)) rows) in
  let typeW :=
    max_list
      (List.map
         (fun r => match label_length (typeLabel r) with
                   | Some n => n
                   | None => O
                   end)
         rows) in
  let rangeW :=
    max_list (5%nat :: List.map (fun r => String.length (range r)) rows) in
  let* body := traverse (row_element nameW typeW rangeW) rows in
  Ok (Box {| box_key := None; flexDirection := "column"; marginTop := 1;
             padding := 0; paddingBottom := 0;
             borderStyle := None; borderColor := None |}
        (Text plain_text
           [ Text (colored "gray" true) [Lit (padEnd nameW "name")];
             sep;
             Text (colored "gray" true) [Lit (padEnd typeW "type")];
             sep;
             Text (colored "gray" true) [Lit (padEnd rangeW "range")];
             sep;
             Text (colored "gray" true) [Lit "values"] ]
         :: body)).

(** The first line of the box of a table. *)
Definition title_element (mode : Mode) (v : TableView.t) : Element :=
  Text plain_text
    [ Text (colored "yellow" true)
        [Lit (TableView.table_schema v); Lit ".";
         Lit (TableView.table_name v)];
      Text plain_text [Lit (" " ++ em_dash ++ " ")];
      Text (colored
              (match mode with
               | estimated => "magenta"
               | exact =>
                   match TableView.exact_rows v with
                   | Null => "red"
                   | _ => "green"
                   end
               end) false)
        [Lit (countLabelFor mode v); Lit " rows"];
      Text plain_text [Lit ", "];
      Text (colored "blue" false)
        [Lit (BigInt.toString (TableView.column_count v)); Lit " cols"] ].

(** The box of a table: the body of [views.map((v) => ...)]. *)
Definition table_box (mode : Mode) (v : TableView.t) : result Element :=
  let* cols :=
    match TableView.columns v with
    | [] => Ok []
    | columns => let* b := columns_box columns in Ok [b]
    end in
  Ok (Box {| box_key :=
               Some (TableView.table_schema v ++ "." ++ TableView.table_name v);
             flexDirection := "column"; marginTop := 1; padding := 1;
             paddingBottom := 0;
             borderStyle := Some "round"; borderColor := Some "gray" |}
        (title_element mode v :: cols)).

(** The element [<App />] that [renderTables] hands to [render]; it
    throws when the evaluation of the component does. *)
Definition renderTables (views : list TableView.t) (mode : Mode)
  : result Element :=
  let* boxes := traverse (table_box mode) views in
  Ok (Box {| box_key := None; flexDirection := "column"; marginTop := 0;
             padding := 0; paddingBottom := 1;
             borderStyle := None; borderColor := None |}
        (Text (colored "cyan" true) [Lit (header mode)] :: boxes)).

(** The content of the rendering, when the component evaluates, and its
    layout as an element. *)
Definition row_content (r : Row) : result ColumnContent :=
  match typeLabel r with
  | LStr s =>
      Ok {| shown_name := name r; shown_type := s;
            shown_range := range r; shown_values := values r |}
  | _ => Throw "TypeError"
  end.

Definition table_content (mode : Mode) (v : TableView.t)
  : result TableContent :=
  let* rows := traverse column_row (TableView.columns v) in
  let* columns := traverse row_content rows in
  Ok {| shown_schema := TableView.table_schema v;
        shown_table := TableView.table_name v;
        shown_count := countLabelFor mode v;
        shown_cols := BigInt.toString (TableView.column_count v);
        shown_columns := columns |}.

Definition content (views : list TableView.t) (mode : Mode)
  : result Content :=
  let* tables := traverse (table_content mode) views in
  Ok {| shown_heading := header mode; shown_tables := tables |}.

Definition layout_row (nameW typeW rangeW : nat) (c : ColumnContent)
  : Element :=
  Text {| text_key := Some (shown_name c); color := None; bold := false |}
    ([ Text (colored "green" false) [Lit (padEnd nameW (shown_name c))];
       sep;
       Text (colored "gray" false) [Lit (padEnd typeW (shown_type c))];
       sep;
       (if String.eqb (shown_range c) EmptyString then
          Text plain_text [Lit (padEnd rangeW EmptyString)]
        else
          Text (colored "yellow" false) [Lit (padEnd rangeW (shown_range c))]);
       sep ]
     ++ (if String.eqb (shown_values c) EmptyString then []
         else [Text (colored "yellow" false) [Lit (shown_values c)]]))%list.

Definition layout_columns (columns : list ColumnContent) : Element :=
  let nameW :=
    max_list (List.map (fun c => String.length (shown_name c)) columns) in
  let typeW :=
    max_list (List.map (fun c => String.length (shown_type c)) columns) in
  let rangeW :=
    max_list
      (5%nat :: List.map (fun c => String.length (shown_range c)) columns) in
  Box {| box_key := None; flexDirection := "column"; marginTop := 1;
         padding := 0; paddingBottom := 0;
         borderStyle := None; borderColor := None |}
    (Text plain_text
       [ Text (colored "gray" true) [Lit (padEnd nameW "name")];
         sep;
         Text (colored "gray" true) [Lit (padEnd typeW "type")];
         sep;
         Text (colored "gray" true) [Lit (padEnd rangeW "range")];
         sep;
         Text (colored "gray" true) [Lit "values"] ]
     :: List.map (layout_row nameW typeW rangeW) columns).

Definition layout_table (mode : Mode) (t : TableContent) : Element :=
  Box {| box_key := Some (shown_schema t ++ "." ++ shown_table t);
         flexDirection := "column"; marginTop := 1; padding := 1;
         paddingBottom := 0;
         borderStyle := Some "round"; borderColor := Some "gray" |}
    (Text plain_text
       [ Text (colored "yellow" true)
           [Lit (shown_schema t); Lit "."; Lit (shown_table t)];
         Text plain_text [Lit (" " ++ em_dash ++ " ")];
         Text (colored
                 (match mode with
                  | estimated => "magenta"
                  | exact =>
                      if String.eqb (shown_count t) "error" then "red"
                      else "green"
                  end) false)
           [Lit (shown_count t); Lit " rows"];
         Text plain_text [Lit ", "];
         Text (colored "blue" false) [Lit (shown_cols t); Lit " cols"] ]
     :: match shown_columns t with
        | [] => []
        | columns => [layout_columns columns]
        end).

Definition layout (mode : Mode) (c : Content) : Element :=
  Box {| box_key := None; flexDirection := "column"; marginTop := 0;
         padding := 0; paddingBottom := 1;
         borderStyle := None; borderColor := None |}
    (Text (colored "cyan" true) [Lit (shown_heading c)]
     :: List.map (layout_table mode) (shown_tables c)).

(** The views that the component can show: no column has a type whose
    label is not a string, and no column of a time of day has a bound
    that is [undefined] next to one that is not [null]. *)
Definition showable_column (c : ColumnInfo.t) : bool :=
  let dt := ColumnInfo.data_type c in
  match humanDataType dt with
  | LStr _ =>
      negb (isTemporalDataType dt && isTimeOnly dt
            && not_null (ColumnInfo.min c) && not_null (ColumnInfo.max c)
            && negb (match ColumnInfo.min c, ColumnInfo.max c with
                     | Val _, Val _ => true
                     | _, _ => false
                     end))
  | _ => false
  end.

Definition showable (views : list TableView.t) : bool :=
  forallb (fun v => forallb showable_column (TableView.columns v)) views.

Definition listTables (db : Database) (argv : list string)
  : Output Element :=
  match connect_error db with
  | Some e => failed e
  | None =>
      finally_end db
        (let* estimated_ := fetchEstimatedTables db in
         let* columnsByTable := fetchColumnsByTable db in
         match estimated_ with
         | [] =>
             Ok {| stdout := ["No tables found."]; screen := None;
                   stderr := []; exitCode := 0 |}
         | _ =>
             let '(flags, _) := parseArgs argv in
             let wantExact := has_flag flags "--exact" in
             let* app :=
               if negb wantExact then
                 renderTables
                   (buildEstimatedView estimated_ columnsByTable) estimated
               else
                 renderTables
                   (buildExactView db estimated_ columnsByTable) exact in
             Ok {| stdout := []; screen := Some app;
                   stderr := []; exitCode := 0 |}
         end)
  end.

End Render.

End Ink.

(** ** A sample database, for examples

    Two user tables, one of them never analyzed, a view and a system
    table.  The statistics of [users.id] and the histogram of
    [users.active] are available, those of [orders.day] and of
    [orders.paid] are not; the count of [users] is zero, the one of
    [orders] fails. *)

Module Sample.

Definition users_id : Columns.t := Columns.mk "public" "users" "id" "integer" 1.

Definition users_active : Columns.t :=
  Columns.mk "public" "users" "active" "boolean" 2.

Definition orders_day : Columns.t := Columns.mk "public" "orders" "day" "date" 1.

Definition orders_paid : Columns.t :=
  Columns.mk "public" "orders" "paid" "boolean" 2.

Definition users : TableInfo.t := TableInfo.mk "public" "users" 2 0.

Definition orders : TableInfo.t := TableInfo.mk "public" "orders" 2 42.

Definition db : Database := {|
  pg_class :=
    [ PgClass.mk "users" 2200 "r" (-1);
      PgClass.mk "orders" 2200 "r" 42;
      PgClass.mk "recent_orders" 2200 "v" 0;
      PgClass.mk "pg_type" 11 "r" 600 ];
  pg_namespace :=
    [ PgNamespace.mk 2200 "public"; PgNamespace.mk 11 "pg_catalog" ];
  information_schema_columns :=
    [ users_id; users_active; orders_day; orders_paid ];
  connect_error := None;
  end_error := None;
  catalog_error := fun _ => None;
  select_range := fun sql =>
    if String.eqb sql (Ink.range_sql users_id)
    then Ok [RangeRow.mk (Some "1") (Some "5")]
    else Throw "permission denied";
  select_histogram := fun sql =>
    if String.eqb sql (Ink.hist_sql users_active)
    then Ok [HistRow.mk "28000" "14000"]
    else Throw "permission denied";
  select_count := fun sql =>
    if String.eqb sql (countSql users) then Ok [CountRow.mk "0"]
    else Throw "canceling statement due to statement timeout"
|}.

(** A database without tables. *)
Definition empty_db : Database := {|
  pg_class := [];
  pg_namespace := [ PgNamespace.mk 2200 "public" ];
  information_schema_columns := [];
  connect_error := None;
  end_error := None;
  catalog_error := fun _ => None;
  select_range := fun _ => Throw "no such relation";
  select_histogram := fun _ => Throw "no such relation";
  select_count := fun _ => Throw "no such relation"
|}.

(** A view of a table with one numeric column of known bounds. *)
Definition numbers_view : TableView.t :=
  TableView.mk "public" "numbers" 1
    [ColumnInfo.mk "n" "integer" (Val "1") (Val "5") Null Null]
    (Val 3) Undefined.

End Sample.

(** ** Further definitions

    What the second half of the theorems needs beside the scripts. *)

From Stdlib Require Import Sorted.

(** The reader of a quoted identifier at the head of a text: the
    identifier, and the text after its closing quote. *)
Fixpoint read_quoted_body (s : string) : option (string * string) :=
  match s with
  | EmptyString => None
  | String a rest =>
      if is_dq a then
        match rest with
        | String b rest' =>
            if is_dq b then
              match read_quoted_body rest' with
              | Some (x, r) => Some (String dq x, r)
              | None => None
              end
            else Some (EmptyString, rest)
        | EmptyString => Some (EmptyString, EmptyString)
        end
      else
        match read_quoted_body rest with
        | Some (x, r) => Some (String a x, r)
        | None => None
        end
  end.

Definition read_quoted (s : string) : option (string * string) :=
  match s with
  | String a rest => if is_dq a then read_quoted_body rest else None
  | EmptyString => None
  end.

(** The text does not start with a quote. *)
Definition no_quote_ahead (r : string) : bool :=
  match r with
  | String a _ => negb (is_dq a)
  | EmptyString => true
  end.

(** An argument that [parseArgs] takes for a flag: it starts with two
    dashes and has no equal sign. *)
Definition is_flag (arg : string) : bool :=
  startsWith "--" arg && negb (includes_char "=" arg).

(** One turn of the loop of [parseArgs]. *)
Definition parseArgs_step (acc : list string * list (string * string))
  (arg : string) : list string * list (string * string) :=
  let '(flags, options) := acc in
  if startsWith "--" arg then
    match split_at "=" arg with
    | None => ((flags ++ [arg])%list, options)
    | Some (k, rest) =>
        let v := match split_at "=" rest with
                 | Some (v, _) => v
                 | None => rest
                 end in
        (flags, (options ++ [(k, v)])%list)
    end
  else (flags, options).

(** The rows of a table among the rows of the columns statement: those
    whose key is the key of the table. *)
Definition rows_of_key (key : string) (rows : list Columns.t)
  : list Columns.t :=
  List.filter
    (fun r =>
       String.eqb
         (table_key (Columns.table_schema r) (Columns.table_name r)) key)
    rows.

(** The name and the declared type of a column. *)
Definition name_and_type (c : ColumnInfo.t) : string * string :=
  (ColumnInfo.column_name c, ColumnInfo.data_type c).

(** The object that [fetchColumnsByTable] of [listTables.tsx] pushes for
    a row, given the two maps of statistics. *)
Definition ink_column_info (ranges : gmap string RangeRow.t)
  (boolHist : gmap string Ink.Histogram) (r : Columns.t) : ColumnInfo.t :=
  ColumnInfo.mk (Columns.column_name r) (Columns.data_type r)
    (match ranges !! Ink.column_key r with
     | Some e => Ink.of_db (RangeRow.min e)
     | None => Undefined
     end)
    (match ranges !! Ink.column_key r with
     | Some e => Ink.of_db (RangeRow.max e)
     | None => Undefined
     end)
    (match boolHist !! Ink.column_key r with
     | Some h => Ink.of_db (Ink.hist_true_count h)
     | None => Null
     end)
    (match boolHist !! Ink.column_key r with
     | Some h => Ink.of_db (Ink.hist_false_count h)
     | None => Null
     end).

(** A view without its row counts. *)
Definition view_outline (v : TableView.t)
  : string * string * Z * list ColumnInfo.t :=
  (TableView.table_schema v, TableView.table_name v,
   TableView.column_count v, TableView.columns v).

(** The children of an element, and their texts. *)
Definition children_of (e : Ink.Element) : list Ink.Element :=
  match e with
  | Ink.Box _ children => children
  | Ink.Text _ children => children
  | Ink.Lit _ => []
  end.

Definition cell_texts (e : Ink.Element) : list string :=
  List.map Ink.text_of (children_of e).

(** The first, third and fifth text of a row of cells, and the texts
    between them. *)
Definition aligned_cells (nameW typeW rangeW : nat) (texts : list string)
  : Prop :=
  match texts with
  | n :: s1 :: t :: s2 :: r :: s3 :: _ =>
      String.length n = nameW /\ s1 = "  "
      /\ String.length t = typeW /\ s2 = "  "
      /\ String.length r = rangeW /\ s3 = "  "
  | _ => False
  end.

(** The database with other answers to the statistics statements and to
    the count statements. *)
Definition with_answers (db : Database)
  (ranges : string -> result (list RangeRow.t))
  (histograms : string -> result (list HistRow.t))
  (counts : string -> result (list CountRow.t)) : Database :=
  {| pg_class := pg_class db;
     pg_namespace := pg_namespace db;
     information_schema_columns := information_schema_columns db;
     connect_error := connect_error db;
     end_error := end_error db;
     catalog_error := catalog_error db;
     select_range := ranges;
     select_histogram := histograms;
     select_count := counts |}.

(** The order of the tables statement: by schema, then by name, in the
    order of the code units. *)
Definition table_order (a b : TableInfo.t) : Prop :=
  String.compare (TableInfo.table_schema a) (TableInfo.table_schema b) = Lt
  \/ (TableInfo.table_schema a = TableInfo.table_schema b
      /\ String.leb (TableInfo.table_name a) (TableInfo.table_name b) = true).


(** The text of a time of day as the database writes a [time] without
    fractional seconds: [HH:MM:SS]. *)
Definition iso_time (h m s : Z) : string :=
  pad2 h ++ ":" ++ pad2 m ++ ":" ++ pad2 s.

Definition valid_time (h m s : Z) : Prop :=
  0 <= h <= 23 /\ 0 <= m <= 59 /\ 0 <= s <= 59.

(** Numbers below sixty print, padded, as their two digits. *)
Definition prints_2 (k : Z) : bool :=
  String.eqb (padStart2 (BigInt.toString k)) (pad2 k).
(** * Theorems *)

Lemma string_app_length (a b : string) :
  String.length (a ++ b) = (String.length a + String.length b)%nat.
Proof. induction a as [|c a IH]; simpl; [reflexivity | f_equal; exact IH]. Qed.

Section QuoteIdent.

Local Abbreviation body s :=
  (replace_all_char dq (String dq (String dq EmptyString)) s).

Lemma body_length s :
  String.length (body s) = (String.length s + count_char dq s)%nat.
Proof.
  induction s as [|a s IH]; simpl; [reflexivity|].
  destruct (Ascii.eqb a dq); simpl; rewrite IH; lia.
Qed.

Lemma body_count s : count_char dq (body s) = (2 * count_char dq s)%nat.
Proof.
  induction s as [|a s IH]; simpl; [reflexivity|].
  destruct (Ascii.eqb a dq) eqn:E; simpl.
  - rewrite IH. lia.
  - rewrite E. exact IH.
Qed.

Lemma body_remove s : remove_char dq (body s) = remove_char dq s.
Proof.
  induction s as [|a s IH]; simpl; [reflexivity|].
  destruct (Ascii.eqb a dq) eqn:E; simpl.
  - exact IH.
  - rewrite E, IH. reflexivity.
Qed.

Lemma unquote_body_body s : unquote_body (body s) = Some s.
Proof.
  induction s as [|a s IH]; [reflexivity|].
  simpl. destruct (Ascii.eqb a dq) eqn:E.
  - apply Ascii.eqb_eq in E. subst a. simpl. now rewrite IH.
  - simpl. unfold is_dq. now rewrite E, IH.
Qed.

(** C2.  [quoteIdent] is a total function whose result is the input
    with every embedded double quote doubled, wrapped once in double
    quotes: the result is quote, body, quote; the body read back with
    paired quotes is the input; it has two quotes for each quote of the
    input and the input's other characters unchanged, in order. *)
Theorem quoteIdent_doubles_and_wraps (s : string) :
  exists b : string,
    quoteIdent s = String dq (b ++ String dq EmptyString)
    /\ unquote_body b = Some s
    /\ count_char dq b = (2 * count_char dq s)%nat
    /\ remove_char dq b = remove_char dq s
    /\ String.length (quoteIdent s)
       = (String.length s + count_char dq s + 2)%nat.
Proof.
  exists (body s). repeat split.
  - apply unquote_body_body.
  - apply body_count.
  - apply body_remove.
  - unfold quoteIdent. simpl. rewrite string_app_length, body_length.
    simpl. lia.
Qed.

End QuoteIdent.

(** ** bigint to text and back *)

Section Decimal.

Import Decimal.

Lemma all_digits_uint (d : uint) :
  all_digits (DecimalString.NilEmpty.string_of_uint d) = true.
Proof. induction d; simpl; auto. Qed.

Lemma toString_nonneg_digits (z : Z) :
  0 <= z -> all_digits (BigInt.toString z) = true.
Proof.
  intros Hz. unfold BigInt.toString. destruct z as [|p|p]; [reflexivity| |lia].
  simpl. unfold DecimalString.NilZero.string_of_uint.
  destruct (Pos.to_uint p) eqn:E; try reflexivity;
    rewrite <- E; apply all_digits_uint.
Qed.

Lemma toString_nonempty (z : Z) : BigInt.toString z <> EmptyString.
Proof.
  unfold BigInt.toString.
  destruct z as [|p|p]; simpl; try discriminate.
  unfold DecimalString.NilZero.string_of_uint.
  destruct (Pos.to_uint p) eqn:E; simpl; try discriminate.
Qed.

Lemma toString_read (z : Z) :
  exists i, DecimalString.NilZero.int_of_string (BigInt.toString z) = Some i
            /\ Z.of_int i = z.
Proof.
  exists (Z.to_int z). split; [|apply DecimalZ.of_to].
  unfold BigInt.toString. apply DecimalString.NilZero.isi.
  - destruct z; simpl; try discriminate.
    intros [= E]. now apply DecimalPos.Unsigned.to_uint_nonnil in E.
  - destruct z; simpl; try discriminate.
    intros [= E]. now apply DecimalPos.Unsigned.to_uint_nonnil in E.
Qed.

Lemma toString_one_digit (z : Z) :
  0 <= z <= 9 ->
  exists c, BigInt.toString z = String c EmptyString
            /\ is_digit c = true /\ Z.of_nat (nat_of_ascii c) - 48 = z.
Proof.
  intros Hz.
  assert (z = 0 \/ z = 1 \/ z = 2 \/ z = 3 \/ z = 4 \/ z = 5 \/ z = 6
          \/ z = 7 \/ z = 8 \/ z = 9) as H by lia.
  repeat (destruct H as [-> | H]); [..|subst z];
    (eexists; split; [reflexivity | split; reflexivity]).
Qed.

End Decimal.

Lemma count_of_malformed (s : string) :
  BigInt.ofString s = None -> count_of s = 0.
Proof. unfold count_of, BigInt.BigInt. now intros ->. Qed.

Lemma count_of_parsed (s : string) (z : Z) :
  BigInt.ofString s = Some z -> count_of s = z.
Proof. unfold count_of, BigInt.BigInt. now intros ->. Qed.

(** *** [BigInt] reads what [toString] writes *)

Section ReadBack.

Import Decimal.

Lemma digits_value_uint_acc (d : uint) (acc : positive) :
  BigInt.digits_value 10 (Z.pos acc)
    (DecimalString.NilEmpty.string_of_uint d)
  = Some (Z.pos (Pos.of_uint_acc d acc)).
Proof.
  revert acc. induction d; intros acc; simpl; [reflexivity|..].
  all: match goal with
       | |- context [Z.of_nat (nat_of_ascii ?c) - 48] =>
           let v := eval vm_compute in (Z.of_nat (nat_of_ascii c) - 48) in
           change (Z.of_nat (nat_of_ascii c) - 48) with v
       end.
  all: match goal with
       | |- BigInt.digits_value 10 ?a _
            = Some (Z.pos (Pos.of_uint_acc _ ?b)) =>
           replace a with (Z.pos b) by lia; apply IHd
       end.
Qed.
Lemma digits_value_uint (d : uint) :
  BigInt.digits_value 10 0 (DecimalString.NilEmpty.string_of_uint d)
  = Some (Z.of_N (Pos.of_uint d)).
Proof.
  induction d; simpl; [reflexivity|..]; try exact IHd.
  all: apply (digits_value_uint_acc d).
Qed.

Lemma is_digit_cases (c : ascii) :
  is_digit c = true ->
  c = "0"%char \/ c = "1"%char \/ c = "2"%char \/ c = "3"%char
  \/ c = "4"%char \/ c = "5"%char \/ c = "6"%char \/ c = "7"%char
  \/ c = "8"%char \/ c = "9"%char.
Proof.
  destruct c as [[] [] [] [] [] [] [] []]; intros H; try discriminate H;
    tauto.
Qed.

Lemma digit_not_space (c : ascii) :
  is_digit c = true -> BigInt.is_space c = false.
Proof.
  intros H. apply is_digit_cases in H.
  repeat (destruct H as [-> | H]); [..|subst c]; reflexivity.
Qed.

Lemma trim_end_digits (s : string) :
  all_digits s = true -> BigInt.trim_end s = s.
Proof.
  induction s as [|c s IH]; [reflexivity|]. simpl.
  intros H. apply andb_prop in H as [Hc Hs]. rewrite (IH Hs).
  destruct s; [now rewrite (digit_not_space c Hc) | reflexivity].
Qed.

Lemma ofString_digits (s : string) :
  all_digits s = true -> s <> EmptyString ->
  BigInt.ofString s = BigInt.digits_value 10 0 s.
Proof.
  intros H Hne. destruct s as [|c s]; [congruence|].
  unfold BigInt.ofString, BigInt.trim.
  pose proof H as H'.
  simpl in H. apply andb_prop in H as [Hc Hs].
  cbn [BigInt.trim_start]. rewrite (digit_not_space c Hc).
  rewrite (trim_end_digits _ H').
  destruct s as [|c2 s].
  - apply is_digit_cases in Hc.
    repeat (destruct Hc as [-> | Hc]); [..|subst c]; reflexivity.
  - simpl in Hs. apply andb_prop in Hs as [Hc2 Hs].
    apply is_digit_cases in Hc, Hc2.
    repeat (destruct Hc as [-> | Hc]); [..|subst c];
      try reflexivity;
      repeat (destruct Hc2 as [-> | Hc2]); [..|subst c2]; reflexivity.
Qed.

Lemma string_of_uint_nonnil (d : uint) :
  d <> Nil ->
  DecimalString.NilZero.string_of_uint d
  = DecimalString.NilEmpty.string_of_uint d
  /\ DecimalString.NilEmpty.string_of_uint d <> EmptyString.
Proof. destruct d; intros H; try congruence; split; easy. Qed.

Lemma ofString_toString (z : Z) :
  BigInt.ofString (BigInt.toString z) = Some z.
Proof.
  destruct z as [|p|p]; [reflexivity| |].
  - unfold BigInt.toString. cbn [Z.to_int DecimalString.NilZero.string_of_int].
    destruct (string_of_uint_nonnil _ (DecimalPos.Unsigned.to_uint_nonnil p))
      as [-> Hne].
    rewrite ofString_digits by (auto using all_digits_uint).
    rewrite digits_value_uint, DecimalPos.Unsigned.of_to. reflexivity.
  - unfold BigInt.toString. cbn [Z.to_int DecimalString.NilZero.string_of_int].
    destruct (string_of_uint_nonnil _ (DecimalPos.Unsigned.to_uint_nonnil p))
      as [-> Hne].
    pose proof (all_digits_uint (Pos.to_uint p)) as Hd.
    unfold BigInt.ofString, BigInt.trim. cbn [BigInt.trim_start].
    change (BigInt.is_space "-") with false. cbv iota.
    cbn [BigInt.trim_end]. rewrite (trim_end_digits _ Hd).
    destruct (DecimalString.NilEmpty.string_of_uint (Pos.to_uint p))
      as [|c s] eqn:E; [congruence|].
    cbv iota. unfold BigInt.number_in. rewrite <- E.
    rewrite digits_value_uint, DecimalPos.Unsigned.of_to. reflexivity.
Qed.

Lemma count_of_toString (z : Z) : count_of (BigInt.toString z) = z.
Proof. apply count_of_parsed, ofString_toString. Qed.

End ReadBack.

Lemma split_at_digits (w r : string) (c : ascii) :
  all_digits w = true -> is_digit c = false ->
  split_at c (w ++ String c r) = Some (w, r).
Proof.
  intros Hw Hc. induction w as [|a w IH]; simpl.
  - now rewrite Ascii.eqb_refl.
  - simpl in Hw. apply andb_prop in Hw as [Ha Hw].
    destruct (Ascii.eqb a c) eqn:E.
    + apply Ascii.eqb_eq in E. subst a. congruence.
    + now rewrite (IH Hw).
Qed.

(** ** Percentages *)

Lemma permille_nonneg (n d : Z) : 0 <= n -> 0 < d -> 0 <= permille n d.
Proof.
  intros Hn Hd. unfold permille.
  assert (0 <= d / 2) as Hh by (apply Z.div_pos; lia).
  rewrite (Z.quot_div_nonneg d 2) by lia.
  rewrite Z.quot_div_nonneg by lia.
  apply Z.div_pos; lia.
Qed.

Lemma permille_sum (t f : Z) :
  0 <= t -> 0 <= f -> 0 < t + f ->
  1000 <= permille t (t + f) + permille f (t + f) <= 1001.
Proof.
  intros Ht Hf Hd. unfold permille.
  remember (t + f) as d eqn:Ed.
  assert (0 <= d / 2) as Hh by (apply Z.div_pos; lia).
  rewrite (Z.quot_div_nonneg d 2) by lia.
  rewrite !Z.quot_div_nonneg by lia.
  pose proof (Z.div_mod d 2 ltac:(lia)) as Eh.
  pose proof (Z.mod_pos_bound d 2 ltac:(lia)) as Bh.
  set (h := d / 2) in *.
  pose proof (Z.div_mod (t * 1000 + h) d ltac:(lia)) as Ea.
  pose proof (Z.mod_pos_bound (t * 1000 + h) d ltac:(lia)) as Ba.
  pose proof (Z.div_mod (f * 1000 + h) d ltac:(lia)) as Eb.
  pose proof (Z.mod_pos_bound (f * 1000 + h) d ltac:(lia)) as Bb.
  set (a := (t * 1000 + h) / d) in *.
  set (b := (f * 1000 + h) / d) in *.
  set (ra := (t * 1000 + h) mod d) in *.
  set (rb := (f * 1000 + h) mod d) in *.
  set (e := d mod 2) in *.
  clearbody a b ra rb e h.
  assert (d * (a + b) + ra + rb = 1000 * d + 2 * h) as E by (subst d; lia).
  split.
  - (* at least 1000 *)
    destruct (Z_lt_le_dec (a + b) 1000) as [Hlt|]; [exfalso | lia].
    assert (d * (a + b) <= d * 999) as Hm by (apply Z.mul_le_mono_nonneg_l; lia).
    assert (ra + rb >= d + 2 * h) as Hr by lia.
    (* the remainders sum to at most 2d - 2, so 2h <= d - 2, yet 2h >= d - 1 *)
    lia.
  - destruct (Z_lt_le_dec 1001 (a + b)) as [Hgt|]; [exfalso | lia].
    assert (d * 1002 <= d * (a + b)) as Hm by (apply Z.mul_le_mono_nonneg_l; lia).
    lia.
Qed.

Lemma formatPercent_shape (n d : Z) :
  0 <= n -> 0 < d ->
  exists (w : string) (c : ascii),
    formatPercentOneDecimal n d = w ++ String "." (String c "%")
    /\ w <> EmptyString /\ all_digits w = true /\ is_digit c = true
    /\ (exists i, DecimalString.NilZero.int_of_string w = Some i
                  /\ Z.of_int i * 10 + (Z.of_nat (nat_of_ascii c) - 48)
                     = permille n d).
Proof.
  intros Hn Hd. pose proof (permille_nonneg n d Hn Hd) as Hp.
  unfold formatPercentOneDecimal. fold (permille n d).
  destruct (Z.eqb_spec d 0) as [->|_]; [lia|].
  set (p := permille n d) in *. clearbody p.
  assert (0 <= Z.quot p 10) as Hw by (apply Z.quot_pos; lia).
  assert (0 <= Z.rem p 10 <= 9) as Ht.
  { pose proof (Z.rem_bound_pos p 10 Hp ltac:(lia)). lia. }
  destruct (toString_one_digit _ Ht) as (c & Ec & Dc & Vc).
  destruct (toString_read (Z.quot p 10)) as (i & Ei & Vi).
  exists (BigInt.toString (Z.quot p 10)), c. repeat split.
  - rewrite Ec. reflexivity.
  - apply toString_nonempty.
  - now apply toString_nonneg_digits.
  - exact Dc.
  - exists i. split; [exact Ei|]. rewrite Vi, Vc.
    pose proof (Z.quot_rem' p 10). lia.
Qed.

Lemma formatPercent_well_formed (n d : Z) :
  0 <= n -> 0 <= d ->
  well_formed_percent (formatPercentOneDecimal n d) = true.
Proof.
  intros Hn Hd. destruct (Z.eq_dec d 0) as [->|Hne]; [reflexivity|].
  destruct (formatPercent_shape n d Hn ltac:(lia))
    as (w & c & -> & Hw & Dw & Dc & _).
  unfold well_formed_percent.
  rewrite split_at_digits by (auto; reflexivity).
  rewrite Dw, Dc. destruct w; [congruence | reflexivity].
Qed.

Lemma formatPercent_tenths (n d : Z) :
  0 <= n -> 0 < d ->
  percent_tenths (formatPercentOneDecimal n d) = Some (permille n d).
Proof.
  intros Hn Hd. unfold percent_tenths.
  rewrite formatPercent_well_formed by lia.
  destruct (formatPercent_shape n d Hn Hd)
    as (w & c & -> & Hw & Dw & Dc & i & Ei & Vi).
  rewrite split_at_digits by (auto; reflexivity).
  rewrite Ei, Vi. reflexivity.
Qed.

Lemma booleanPercents_counts (ts fs : string) :
  booleanPercents ts fs
  = (formatPercentOneDecimal (count_of ts) (count_of ts + count_of fs),
     formatPercentOneDecimal (count_of fs) (count_of ts + count_of fs)).
Proof. reflexivity. Qed.

(** C3.  For non-negative counts [t] and [f], the percentages that
    [booleanPercents] renders for the texts of the two counts are the one
    of [t] in [t + f] and the one of [f] in [t + f].  When the total is
    not zero they denote numbers of tenths of a percent whose sum is 1000
    or 1001, that is 100.0% within one tenth; when the total is zero both
    are ["0.0%"]. *)
Theorem percent_pair_sums_to_100 (t f : Z) :
  0 <= t -> 0 <= f ->
  booleanPercents (BigInt.toString t) (BigInt.toString f)
  = (formatPercentOneDecimal t (t + f), formatPercentOneDecimal f (t + f))
  /\ (0 < t + f ->
      exists pt pf : Z,
        percent_tenths (formatPercentOneDecimal t (t + f)) = Some pt
        /\ percent_tenths (formatPercentOneDecimal f (t + f)) = Some pf
        /\ 1000 <= pt + pf <= 1001)
  /\ (t + f = 0 ->
      formatPercentOneDecimal t (t + f) = "0.0%"
      /\ formatPercentOneDecimal f (t + f) = "0.0%").
Proof.
  intros Ht Hf. split; [|split].
  - now rewrite booleanPercents_counts, !count_of_toString.
  - intros Hd. exists (permille t (t + f)), (permille f (t + f)).
    repeat split; try (apply formatPercent_tenths; lia);
      apply permille_sum; lia.
  - intros ->. split; reflexivity.
Qed.

Lemma percent_pair_sums_to_100_witness :
  booleanPercents (BigInt.toString 1) (BigInt.toString 15)
  = (formatPercentOneDecimal 1 (1 + 15), formatPercentOneDecimal 15 (1 + 15))
  /\ (0 < 1 + 15 ->
      exists pt pf : Z,
        percent_tenths (formatPercentOneDecimal 1 (1 + 15)) = Some pt
        /\ percent_tenths (formatPercentOneDecimal 15 (1 + 15)) = Some pf
        /\ 1000 <= pt + pf <= 1001)
  /\ (1 + 15 = 0 ->
      formatPercentOneDecimal 1 (1 + 15) = "0.0%"
      /\ formatPercentOneDecimal 15 (1 + 15) = "0.0%").
Proof. apply (percent_pair_sums_to_100 1 15); lia. Defined.

(** One and fifteen: both halves round up, and the sum is 100.1%. *)
Example percent_pair_1_15 :
  booleanPercents "1" "15" = ("6.3%", "93.8%").
Proof. reflexivity. Qed.

(** The example of the specification: 28000 true and 14000 false values. *)
Example booleanPercents_28000_14000 :
  booleanPercents "28000" "14000" = ("66.7%", "33.3%").
Proof. reflexivity. Qed.

(** *** Strings that are not integers *)

(** C10, as stated, fails: a string that parses as a negative integer is
    not a count, and the text rendered for it is not a percentage. *)
Lemma booleanPercents_negative_ill_formed :
  booleanPercents "-3" "1" = ("150.0%", "-49.-9%")
  /\ well_formed_percent (snd (booleanPercents "-3" "1")) = false
  /\ ~ (forall ts fs : string,
          well_formed_percent (fst (booleanPercents ts fs)) = true
          /\ well_formed_percent (snd (booleanPercents ts fs)) = true).
Proof.
  split; [reflexivity|]. split; [reflexivity|].
  intros H. destruct (H "-3" "1") as [_ H2]. discriminate H2.
Qed.

(** C10, amended.  [booleanPercents] is total; a string that is not an
    integer counts as zero, so that it renders as the string ["0"] does
    in its place, and two such strings render as ["0.0%"] twice; the two
    results are well-formed percentages whenever neither string parses as
    a negative integer. *)
Theorem booleanPercents_malformed_is_zero (ts fs : string) :
  (BigInt.ofString ts = None ->
   booleanPercents ts fs = booleanPercents "0" fs)
  /\ (BigInt.ofString fs = None ->
      booleanPercents ts fs = booleanPercents ts "0")
  /\ (BigInt.ofString ts = None -> BigInt.ofString fs = None ->
      booleanPercents ts fs = ("0.0%", "0.0%"))
  /\ ((forall z, BigInt.ofString ts = Some z -> 0 <= z) ->
      (forall z, BigInt.ofString fs = Some z -> 0 <= z) ->
      well_formed_percent (fst (booleanPercents ts fs)) = true
      /\ well_formed_percent (snd (booleanPercents ts fs)) = true).
Proof.
  repeat split.
  - intros H. rewrite !booleanPercents_counts, (count_of_malformed ts H).
    reflexivity.
  - intros H. rewrite !booleanPercents_counts, (count_of_malformed fs H).
    reflexivity.
  - intros H1 H2.
    rewrite booleanPercents_counts, (count_of_malformed ts H1),
      (count_of_malformed fs H2). reflexivity.
  - rewrite booleanPercents_counts. simpl fst.
    assert (0 <= count_of ts) as Ht.
    { destruct (BigInt.ofString ts) as [z|] eqn:E.
      - rewrite (count_of_parsed _ _ E). auto.
      - rewrite (count_of_malformed _ E). lia. }
    assert (0 <= count_of fs) as Hf.
    { destruct (BigInt.ofString fs) as [z|] eqn:E.
      - rewrite (count_of_parsed _ _ E). auto.
      - rewrite (count_of_malformed _ E). lia. }
    apply formatPercent_well_formed; lia.
  - rewrite booleanPercents_counts. simpl snd.
    assert (0 <= count_of ts) as Ht.
    { destruct (BigInt.ofString ts) as [z|] eqn:E.
      - rewrite (count_of_parsed _ _ E). auto.
      - rewrite (count_of_malformed _ E). lia. }
    assert (0 <= count_of fs) as Hf.
    { destruct (BigInt.ofString fs) as [z|] eqn:E.
      - rewrite (count_of_parsed _ _ E). auto.
      - rewrite (count_of_malformed _ E). lia. }
    apply formatPercent_well_formed; lia.
Qed.

Lemma booleanPercents_malformed_is_zero_witness :
  booleanPercents "n/a" "1.5" = ("0.0%", "0.0%")
  /\ booleanPercents "n/a" "12" = booleanPercents "0" "12"
  /\ well_formed_percent (fst (booleanPercents "n/a" "12")) = true
  /\ well_formed_percent (snd (booleanPercents "n/a" "12")) = true.
Proof.
  split; [|split].
  - destruct (booleanPercents_malformed_is_zero "n/a" "1.5")
      as (_ & _ & H & _).
    apply H; reflexivity.
  - destruct (booleanPercents_malformed_is_zero "n/a" "12") as (H & _).
    apply H; reflexivity.
  - destruct (booleanPercents_malformed_is_zero "n/a" "12")
      as (_ & _ & _ & H).
    apply H; intros z E; vm_compute in E; [discriminate E|].
    injection E as <-. lia.
Defined.

(** ** Type labels *)

Lemma slice0_length (n : nat) (s : string) :
  (String.length (slice0 n s) <= n)%nat.
Proof.
  revert s. induction n as [|n IH]; intros [|a s]; simpl; try lia.
  specialize (IH s). lia.
Qed.

Lemma assoc_humanDataType_map_le_8 (t v : string) :
  assoc t humanDataType_map = Some v -> (String.length v <= 8)%nat.
Proof.
  unfold humanDataType_map. simpl.
  repeat (destruct (String.eqb t _);
          [intros [= <-]; simpl; lia|]).
  discriminate.
Qed.

(** Whatever [humanDataType] returns has a [length] of at most 8, when it
    has one; a label that is a string has at most 8 characters. *)
Lemma humanDataType_length_le_8 (dt : string) (n : nat) :
  label_length (humanDataType dt) = Some n -> (n <= 8)%nat.
Proof.
  unfold humanDataType, humanDataType_get.
  destruct (assoc (toLowerCase dt) humanDataType_map) as [v|] eqn:E.
  - apply assoc_humanDataType_map_le_8 in E.
    destruct (Nat.ltb_spec 8 (String.length v)); [lia|].
    cbn [label_length]. intros [= <-]. lia.
  - destruct (String.eqb (toLowerCase dt) "constructor").
    + simpl. intros [= <-]. lia.
    + destruct (String.eqb (toLowerCase dt) "__proto__").
      * simpl. discriminate.
      * destruct (Nat.ltb_spec 8 (String.length dt)); cbn [label_length];
          intros Hn; [|injection Hn as <-; lia].
        pose proof (slice0_length 8 dt) as Hs. congruence.
Qed.

(** A type that [map] knows gets the abbreviation of the table; a type
    that is neither in the table nor the name of an inherited property
    passes through, cut to 8 characters. *)
Lemma humanDataType_recognized (dt v : string) :
  assoc (toLowerCase dt) humanDataType_map = Some v ->
  humanDataType dt = LStr v.
Proof.
  intros E. pose proof (assoc_humanDataType_map_le_8 _ _ E) as Hv.
  unfold humanDataType, humanDataType_get. rewrite E.
  destruct (Nat.ltb_spec 8 (String.length v)); [lia | reflexivity].
Qed.

Lemma humanDataType_unrecognized (dt : string) :
  humanDataType_get (toLowerCase dt) = None ->
  humanDataType dt = LStr (slice0 8 dt)
  /\ (String.length (slice0 8 dt) <= 8)%nat.
Proof.
  intros E. unfold humanDataType. rewrite E. split; [|apply slice0_length].
  destruct (Nat.ltb_spec 8 (String.length dt)) as [H|H]; [reflexivity|].
  f_equal. clear E. revert H. generalize 8%nat as n.
  induction dt as [|a dt IH]; intros [|n] H; simpl in *; try reflexivity;
    try lia.
  f_equal. apply IH. lia.
Qed.

(** C8, where the code departs from it.  For a type name that lower-cases
    to ["constructor"], [map[t]] is the function [Object] that every
    object inherits: [humanDataType] returns it instead of the name cut to
    8 characters, and the renderer cannot pad it. *)
Theorem humanDataType_inherited_key :
  humanDataType "constructor" = LObjectFunction
  /\ humanDataType "Constructor" = LObjectFunction
  /\ humanDataType "__proto__" = LObjectPrototype
  /\ humanDataType "constructor" <> LStr (slice0 8 "constructor")
  /\ forall n, Ink.label_padEnd n (humanDataType "constructor")
               = Throw "TypeError".
Proof. repeat split; try reflexivity; discriminate. Qed.

(** ** Dates *)

Lemma all_from_spec (n : nat) (z : Z) (p : Z -> bool) :
  JsDate.all_from n z p = true ->
  forall x, z <= x < z + Z.of_nat n -> p x = true.
Proof.
  revert z. induction n as [|n IH]; intros z H x Hx; [lia|].
  simpl in H. destruct (p z) eqn:E; [|discriminate].
  destruct (Z.eq_dec x z) as [->|Hne]; [exact E|].
  apply (IH (z + 1)); [exact H | lia].
Qed.

Lemma all_below_spec (n : Z) (p : Z -> bool) :
  JsDate.all_from (Z.to_nat n) 0 p = true ->
  forall x, 0 <= x < n -> p x = true.
Proof.
  intros H x Hx. apply (all_from_spec _ _ _ H).
  rewrite Z2Nat.id by lia. lia.
Qed.


Lemma civil_round_trip_cycle :
  JsDate.all_from (Z.to_nat 148800) 0 JsDate.civil_round_trip = true.
Proof. vm_cast_no_check (eq_refl true). Qed.



Lemma is_leap_cycle (y k : Z) : JsDate.is_leap (y + k * 400) = JsDate.is_leap y.
Proof.
  unfold JsDate.is_leap.
  replace ((y + k * 400) mod 4) with (y mod 4)
    by (replace (k * 400) with (k * 100 * 4) by lia;
        now rewrite Z.mod_add by lia).
  replace ((y + k * 400) mod 100) with (y mod 100)
    by (replace (k * 400) with (k * 4 * 100) by lia;
        now rewrite Z.mod_add by lia).
  now rewrite Z.mod_add by lia.
Qed.

Lemma days_in_month_cycle (y k m : Z) :
  JsDate.days_in_month (y + k * 400) m = JsDate.days_in_month y m.
Proof. unfold JsDate.days_in_month. now rewrite is_leap_cycle. Qed.

Lemma days_in_month_le_31 (y m : Z) : JsDate.days_in_month y m <= 31.
Proof.
  unfold JsDate.days_in_month.
  destruct (m =? 2); [destruct (JsDate.is_leap y); lia|].
  destruct ((m =? 4) || (m =? 6) || (m =? 9) || (m =? 11)); lia.
Qed.

(** The day number of a date is the day of that date. *)
Lemma civil_from_days_from_civil (y m d : Z) :
  1 <= m <= 12 -> 1 <= d <= JsDate.days_in_month y m ->
  JsDate.civil_from_days (JsDate.days_from_civil y m d) = (y, m, d).
Proof.
  intros Hm Hd. pose proof (days_in_month_le_31 y m) as H31.
  unfold JsDate.days_from_civil.
  set (y' := if m <=? 2 then y - 1 else y).
  set (era := y' / 400).
  set (yoe := y' - era * 400).
  assert (0 <= yoe < 400) as Hyoe.
  { pose proof (Z.div_mod y' 400 ltac:(lia)).
    pose proof (Z.mod_pos_bound y' 400 ltac:(lia)).
    unfold yoe, era. lia. }
  set (k := yoe * 372 + (m - 1) * 31 + (d - 1)).
  assert (0 <= k < 148800) as Hk by (unfold k; lia).
  pose proof (all_below_spec _ _ civil_round_trip_cycle k ltac:(lia)) as H.
  unfold JsDate.civil_round_trip in H.
  assert (k mod 31 = d - 1) as E1.
  { unfold k. replace (yoe * 372 + (m - 1) * 31 + (d - 1))
      with ((d - 1) + (yoe * 12 + (m - 1)) * 31) by lia.
    rewrite Z.mod_add by lia. apply Z.mod_small. lia. }
  assert (k / 372 = yoe) as E2.
  { unfold k. replace (yoe * 372 + (m - 1) * 31 + (d - 1))
      with (((m - 1) * 31 + (d - 1)) + yoe * 372) by lia.
    rewrite Z.div_add by lia. rewrite Z.div_small by lia. lia. }
  assert ((k mod 372) / 31 = m - 1) as E3.
  { unfold k. replace (yoe * 372 + (m - 1) * 31 + (d - 1))
      with (((m - 1) * 31 + (d - 1)) + yoe * 372) by lia.
    rewrite Z.mod_add by lia. rewrite Z.mod_small by lia.
    replace ((m - 1) * 31 + (d - 1)) with ((d - 1) + (m - 1) * 31) by lia.
    rewrite Z.div_add by lia. rewrite Z.div_small by lia. lia. }
  rewrite E1, E2, E3 in H.
  replace (m - 1 + 1) with m in H by lia.
  replace (d - 1 + 1) with d in H by lia.
  assert (JsDate.days_in_month (if m <=? 2 then yoe + 1 else yoe) m
          = JsDate.days_in_month y m) as El.
  { rewrite <- (days_in_month_cycle _ era).
    f_equal. unfold yoe, y'. destruct (m <=? 2); lia. }
  rewrite El in H.
  destruct (Z.leb_spec d (JsDate.days_in_month y m)) as [_|]; [|lia].
  set (doe := JsDate.doe_of_civil yoe m d) in *.
  apply andb_prop in H as [H Hc]. apply andb_prop in H as [Hlo Hhi].
  apply Z.leb_le in Hlo. apply Z.ltb_lt in Hhi.
  unfold JsDate.civil_from_days.
  replace (era * 146097 + doe - 719468 + 719468) with (doe + era * 146097)
    by lia.
  rewrite Z.div_add by lia. rewrite Z.div_small by lia.
  replace (doe + era * 146097 - (0 + era) * 146097) with doe by lia.
  destruct (JsDate.civil_of_doe doe) as [[y2 m2] d2].
  apply andb_prop in Hc as [Hc Hd2]. apply andb_prop in Hc as [Hy2 Hm2].
  apply Z.eqb_eq in Hy2, Hm2, Hd2. subst y2 m2 d2.
  do 2 f_equal. unfold yoe, y'. destruct (m <=? 2); lia.
Qed.

(** *** Dates written by the database *)

Lemma digit_char_cases (k : Z) (P : ascii -> Prop) :
  0 <= k <= 9 ->
  P "0"%char -> P "1"%char -> P "2"%char -> P "3"%char -> P "4"%char ->
  P "5"%char -> P "6"%char -> P "7"%char -> P "8"%char -> P "9"%char ->
  P (digit_char k).
Proof.
  intros Hk.
  assert (k = 0 \/ k = 1 \/ k = 2 \/ k = 3 \/ k = 4 \/ k = 5 \/ k = 6
          \/ k = 7 \/ k = 8 \/ k = 9) as H by lia.
  repeat (destruct H as [-> | H]); [..|subst k]; intros; assumption.
Qed.

Lemma digit_of_digit_char (k : Z) :
  0 <= k <= 9 -> JsDate.digit_of (digit_char k) = Some k.
Proof.
  intros Hk.
  assert (k = 0 \/ k = 1 \/ k = 2 \/ k = 3 \/ k = 4 \/ k = 5 \/ k = 6
          \/ k = 7 \/ k = 8 \/ k = 9) as H by lia.
  repeat (destruct H as [-> | H]); [..|subst k]; reflexivity.
Qed.

Lemma read_digits_pad2 (n acc : Z) (rest : string) :
  0 <= n <= 99 ->
  JsDate.read_digits 2 acc (pad2 n ++ rest) = Some (acc * 100 + n, rest).
Proof.
  intros Hn. unfold pad2. simpl.
  rewrite !digit_of_digit_char.
  - do 2 f_equal. pose proof (Z.div_mod n 10 ltac:(lia)). lia.
  - pose proof (Z.mod_pos_bound n 10 ltac:(lia)). lia.
  - pose proof (Z.div_pos n 10 ltac:(lia) ltac:(lia)).
    pose proof (Z.div_lt_upper_bound n 10 10 ltac:(lia) ltac:(lia)). lia.
Qed.

Lemma read_digits_pad4 (n : Z) (rest : string) :
  0 <= n <= 9999 ->
  JsDate.read_digits 4 0 (pad4 n ++ rest) = Some (n, rest).
Proof.
  intros Hn. unfold pad4.
  assert (0 <= n / 1000 <= 9) as H1.
  { pose proof (Z.div_pos n 1000 ltac:(lia) ltac:(lia)).
    pose proof (Z.div_lt_upper_bound n 1000 10 ltac:(lia) ltac:(lia)). lia. }
  assert (0 <= n / 100 mod 10 <= 9) as H2
    by (pose proof (Z.mod_pos_bound (n / 100) 10 ltac:(lia)); lia).
  assert (0 <= n mod 100 <= 99) as H3
    by (pose proof (Z.mod_pos_bound n 100 ltac:(lia)); lia).
  change (JsDate.read_digits 4 0
            (String (digit_char (n / 1000))
               (String (digit_char (n / 100 mod 10)) (pad2 (n mod 100)))
             ++ rest))
    with (match JsDate.digit_of (digit_char (n / 1000)) with
          | Some v =>
              match JsDate.digit_of (digit_char (n / 100 mod 10)) with
              | Some w =>
                  JsDate.read_digits 2 ((0 * 10 + v) * 10 + w)
                    (pad2 (n mod 100) ++ rest)
              | None => None
              end
          | None => None
          end).
  rewrite !digit_of_digit_char by assumption.
  rewrite read_digits_pad2 by assumption. do 2 f_equal.
  pose proof (Z.div_mod n 100 ltac:(lia)).
  pose proof (Z.div_mod (n / 100) 10 ltac:(lia)).
  assert (n / 100 / 10 = n / 1000) by (rewrite Z.div_div by lia; reflexivity).
  lia.
Qed.

Lemma read_year_pad4 (n : Z) (rest : string) :
  0 <= n <= 9999 -> JsDate.read_year (pad4 n ++ rest) = Some (n, rest).
Proof.
  intros Hn. rewrite <- (read_digits_pad4 n rest Hn).
  unfold pad4.
  assert (0 <= n / 1000 <= 9) as H1.
  { pose proof (Z.div_pos n 1000 ltac:(lia) ltac:(lia)).
    pose proof (Z.div_lt_upper_bound n 1000 10 ltac:(lia) ltac:(lia)). lia. }
  generalize (String (digit_char (n / 100 mod 10)) (pad2 (n mod 100))).
  intros s.
  apply (digit_char_cases (n / 1000)
           (fun c => JsDate.read_year (String c s ++ rest)
                     = JsDate.read_digits 4 0 (String c s ++ rest)));
    [exact H1 | reflexivity..].
Qed.

Lemma iso_parse_iso_date (engine : Engine) (y m d : Z) :
  valid_date y m d ->
  JsDate.iso_parse engine (iso_date y m d)
  = Some (JsDate.days_from_civil y m d * JsDate.msPerDay).
Proof.
  intros (Hy & Hm & Hd). pose proof (days_in_month_le_31 y m) as H31.
  unfold JsDate.iso_parse, iso_date.
  rewrite read_year_pad4 by assumption.
  change ("-" ++ pad2 m ++ "-" ++ pad2 d)
    with (String "-" (pad2 m ++ String "-" (pad2 d ++ EmptyString))).
  unfold JsDate.read_month_day. cbv beta iota.
  rewrite read_digits_pad2 by lia. cbv beta iota.
  rewrite read_digits_pad2 by lia. cbv beta iota.
  change (0 * 100 + m) with m. change (0 * 100 + d) with d.
  destruct (Z.leb_spec 1 m); [|lia].
  destruct (Z.leb_spec m 12); [|lia].
  destruct (Z.leb_spec 1 d); [|lia].
  destruct (Z.leb_spec d (JsDate.days_in_month y m)); [|lia].
  reflexivity.
Qed.

Lemma is_digit_digit_char (k : Z) :
  0 <= k <= 9 -> is_digit (digit_char k) = true.
Proof.
  intros Hk. apply (digit_char_cases k (fun c => is_digit c = true));
    [exact Hk | reflexivity..].
Qed.

Lemma digit_or_dash_plain (c : ascii) :
  is_digit c || Ascii.eqb c "-" = true ->
  Ascii.eqb c "T" = false /\ Ascii.eqb c " " = false.
Proof.
  destruct c as [[] [] [] [] [] [] [] []]; simpl; intros H;
    try discriminate H; split; reflexivity.
Qed.

Lemma digits_or_dashes_normalized (s : string) :
  digits_or_dashes s = true ->
  includes_char "T" s = false /\ replace_first_char " " "T" s = s.
Proof.
  induction s as [|c s IH]; simpl; [auto|].
  intros H. apply andb_prop in H as [Hc Hs].
  destruct (digit_or_dash_plain c Hc) as [-> ->].
  destruct (IH Hs) as [-> ->]. auto.
Qed.

Ltac digit_bounds :=
  repeat match goal with
    | |- context [?a / ?b] =>
        lazymatch goal with
        | _ : a = b * (a / b) + a mod b |- _ => fail
        | _ =>
            pose proof (Z.div_mod a b ltac:(lia));
            pose proof (Z.mod_pos_bound a b ltac:(lia))
        end
    | |- context [?a mod ?b] =>
        lazymatch goal with
        | _ : a = b * (a / b) + a mod b |- _ => fail
        | _ =>
            pose proof (Z.div_mod a b ltac:(lia));
            pose proof (Z.mod_pos_bound a b ltac:(lia))
        end
    end.

Lemma pad2_chars (n : Z) : 0 <= n <= 99 -> digits_or_dashes (pad2 n) = true.
Proof.
  intros Hn. unfold pad2. cbn [digits_or_dashes].
  rewrite !is_digit_digit_char; [reflexivity | |]; digit_bounds; lia.
Qed.

Lemma digits_or_dashes_app (a b : string) :
  digits_or_dashes (a ++ b) = digits_or_dashes a && digits_or_dashes b.
Proof.
  induction a as [|c a IH]; simpl; [reflexivity|].
  now rewrite IH, andb_assoc.
Qed.

Lemma iso_date_chars (y m d : Z) :
  valid_date y m d -> digits_or_dashes (iso_date y m d) = true.
Proof.
  intros (Hy & Hm & Hd). pose proof (days_in_month_le_31 y m) as H31.
  unfold iso_date, pad4.
  change (String ?a (String ?b ?s) ++ ?r) with (String a (String b (s ++ r))).
  cbn [digits_or_dashes].
  rewrite !digits_or_dashes_app. cbn [digits_or_dashes].
  rewrite !pad2_chars by (try lia; digit_bounds; lia).
  rewrite !is_digit_digit_char; [reflexivity | |]; digit_bounds; lia.
Qed.

Lemma days_from_civil_bounds (y m d : Z) :
  valid_date y m d ->
  -719528 <= JsDate.days_from_civil y m d <= 2932896.
Proof.
  intros (Hy & Hm & Hd). pose proof (days_in_month_le_31 y m) as H31.
  unfold JsDate.days_from_civil, JsDate.doe_of_civil.
  destruct (Z.leb_spec m 2); Z.to_euclidean_division_equations; lia.
Qed.

Lemma safeParseDateLike_iso_date (engine : Engine) (y m d : Z) :
  valid_date y m d ->
  safeParseDateLike engine (iso_date y m d)
  = Some (JsDate.days_from_civil y m d * JsDate.msPerDay).
Proof.
  intros Hv. unfold safeParseDateLike.
  destruct (digits_or_dashes_normalized _ (iso_date_chars y m d Hv))
    as [-> ->].
  unfold JsDate.Date_of_string. rewrite iso_parse_iso_date by assumption.
  unfold JsDate.TimeClip, JsDate.msPerDay.
  pose proof (days_from_civil_bounds y m d Hv).
  destruct (Z.leb_spec (Z.abs (JsDate.days_from_civil y m d * 86400000))
              8640000000000000); [reflexivity | lia].
Qed.

Lemma fmtMonthYear_civil (y m d : Z) :
  1 <= m <= 12 -> 1 <= d <= JsDate.days_in_month y m ->
  fmtMonthYear (JsDate.days_from_civil y m d * JsDate.msPerDay)
  = nth (Z.to_nat (m - 1)) months "undefined" ++ " " ++ BigInt.toString y.
Proof.
  intros Hm Hd. unfold fmtMonthYear, JsDate.getUTCMonth, JsDate.getUTCFullYear.
  rewrite Z.div_mul by (unfold JsDate.msPerDay; lia).
  rewrite civil_from_days_from_civil by assumption. reflexivity.
Qed.

Lemma year_prints_4_all :
  JsDate.all_from (Z.to_nat 9000) 0 year_prints_4 = true.
Proof. vm_cast_no_check (eq_refl true). Qed.

Lemma toString_four_digits (y : Z) :
  1000 <= y <= 9999 -> BigInt.toString y = pad4 y.
Proof.
  intros Hy.
  pose proof (all_below_spec _ _ year_prints_4_all (y - 1000) ltac:(lia)) as H.
  unfold year_prints_4 in H. replace (1000 + (y - 1000)) with y in H by lia.
  now apply String.eqb_eq.
Qed.

(** ** Temporal ranges *)


Lemma temporal_not_numeric (dt : string) :
  isTemporalDataType dt = true -> isNumericDataType dt = false.
Proof.
  unfold isTemporalDataType, isNumericDataType. intros H.
  repeat (apply orb_prop in H as [H|H]);
    apply String.eqb_eq in H; rewrite H; reflexivity.
Qed.


(** Between the years 1000 and 9999 the year shown is the four digits
    of the bound. *)
Lemma formatTemporalRange_four_digit_years (engine : Engine)
  (y1 m1 d1 y2 m2 d2 : Z) (dt : string) :
  isTimeOnly dt = false ->
  valid_date y1 m1 d1 -> valid_date y2 m2 d2 ->
  1000 <= y1 -> 1000 <= y2 ->
  formatTemporalRange engine (iso_date y1 m1 d1) (iso_date y2 m2 d2) dt
  = Some ((nth (Z.to_nat (m1 - 1)) months "undefined" ++ " " ++ pad4 y1)
          ++ "-"
          ++ (nth (Z.to_nat (m2 - 1)) months "undefined" ++ " " ++ pad4 y2)).
Proof.
  intros Ht Hv1 Hv2 H1 H2. unfold formatTemporalRange. rewrite Ht.
  rewrite !safeParseDateLike_iso_date by assumption.
  destruct Hv1 as (? & ? & ?), Hv2 as (? & ? & ?).
  rewrite !fmtMonthYear_civil by assumption.
  rewrite !toString_four_digits by lia. reflexivity.
Qed.


(** ** View builder *)

Lemma fold_left_push_map {A B : Type} (f : A -> B) (l : list A) (acc : list B) :
  fold_left (fun views t => (views ++ [f t])%list) l acc
  = (acc ++ List.map f l)%list.
Proof.
  revert acc. induction l as [|a l IH]; intros acc; simpl.
  - now rewrite app_nil_r.
  - rewrite IH, <- app_assoc. reflexivity.
Qed.

Lemma buildExactView_map (db : Database) (estimated_ : list TableInfo.t)
  (columnsByTable : gmap string (list ColumnInfo.t)) :
  buildExactView db estimated_ columnsByTable
  = List.map (exact_view db columnsByTable) estimated_.
Proof. unfold buildExactView. now rewrite fold_left_push_map. Qed.

(** ** Catalog reader *)

Lemma insert_by_In {A : Type} (le : A -> A -> bool) (x y : A) (l : list A) :
  In y (insert_by le x l) <-> y = x \/ In y l.
Proof.
  induction l as [|z l IH]; simpl; [intuition|].
  destruct (le x z); simpl; [intuition|]. rewrite IH. intuition.
Qed.

Lemma sort_by_In {A : Type} (le : A -> A -> bool) (y : A) (l : list A) :
  In y (sort_by le l) <-> In y l.
Proof.
  unfold sort_by. induction l as [|x l IH]; simpl; [reflexivity|].
  rewrite insert_by_In, IH. intuition.
Qed.

Lemma select_estimated_tables_row (db : Database) (t : TableInfo.t) :
  In t (select_estimated_tables db) ->
  exists c, In c (pg_class db)
            /\ TableInfo.estimated_rows t = Z.max (PgClass.reltuples c) 0.
Proof.
  unfold select_estimated_tables. rewrite sort_by_In, in_map_iff.
  intros ([c n] & <- & Hin). apply filter_In in Hin as [Hin _].
  apply in_flat_map in Hin as (c' & Hc' & Hin).
  apply in_flat_map in Hin as (n' & _ & Hin).
  destruct (PgNamespace.oid n' =? PgClass.relnamespace c'); [|destruct Hin].
  destruct Hin as [[= <- <-]|[]]. exists c'. split; [exact Hc'|reflexivity].
Qed.

(** C5.  The catalog enumeration returns the rows of its statement
    unless the statement fails.  Every table descriptor among them has an
    estimated row count that is the estimate of the storage engine for a
    table, or zero when that one is negative, so that it is not negative;
    every view built from the descriptors in estimated mode carries that
    count, and a view built in exact mode carries none. *)
Theorem estimated_rows_nonnegative (db : Database) :
  (fetchEstimatedTables db = Ok (select_estimated_tables db)
   \/ exists e, catalog_error db QEstimatedTables = Some e
                /\ fetchEstimatedTables db = Throw e)
  /\ Forall
       (fun t =>
          0 <= TableInfo.estimated_rows t
          /\ exists c, In c (pg_class db)
                       /\ TableInfo.estimated_rows t
                          = if PgClass.reltuples c <? 0 then 0
                            else PgClass.reltuples c)
       (select_estimated_tables db)
  /\ forall columnsByTable,
       Forall
         (fun v => exists z, TableView.estimated_rows v = Val z /\ 0 <= z)
         (buildEstimatedView (select_estimated_tables db) columnsByTable)
       /\ Forall (fun v => TableView.estimated_rows v = Undefined)
            (buildExactView db (select_estimated_tables db) columnsByTable).
Proof.
  split.
  { unfold fetchEstimatedTables, catalog_query.
    destruct (catalog_error db QEstimatedTables) as [e|]; eauto. }
  assert (Forall
            (fun t =>
               0 <= TableInfo.estimated_rows t
               /\ exists c, In c (pg_class db)
                            /\ TableInfo.estimated_rows t
                               = if PgClass.reltuples c <? 0 then 0
                                 else PgClass.reltuples c)
            (select_estimated_tables db)) as H.
  { apply List.Forall_forall. intros t Ht.
    destruct (select_estimated_tables_row db t Ht) as (c & Hc & E).
    split; [lia|]. exists c. split; [exact Hc|].
    rewrite E. destruct (Z.ltb_spec (PgClass.reltuples c) 0); lia. }
  split; [exact H|]. intros cols. split.
  - unfold buildEstimatedView.
    apply List.Forall_forall. intros v Hv.
    apply in_map_iff in Hv as (t & <- & Ht).
    rewrite List.Forall_forall in H. destruct (H t Ht) as [Hpos _].
    eexists. split; [reflexivity | exact Hpos].
  - rewrite buildExactView_map. apply List.Forall_forall. intros v Hv.
    apply in_map_iff in Hv as (t & <- & _). reflexivity.
Qed.

(** The never-analyzed table of the sample database is listed with an
    estimate of zero. *)
Example estimated_rows_sample :
  fetchEstimatedTables Sample.db
  = Ok [TableInfo.mk "public" "orders" 2 42;
        TableInfo.mk "public" "users" 2 0].
Proof. reflexivity. Qed.

(** ** Row counter *)

Lemma exact_count_value (db : Database) (t : TableInfo.t) (z : Z) :
  exact_count db t = Val z ->
  exists r rows,
    select_count db (countSql t) = Ok (r :: rows)
    /\ BigInt.ofString (CountRow.count r) = Some z.
Proof.
  unfold exact_count, BigInt.BigInt.
  destruct (select_count db (countSql t)) as [[|r rows]|e]; simpl;
    try discriminate.
  destruct (BigInt.ofString (CountRow.count r)) as [n|] eqn:E; simpl;
    [|discriminate].
  intros [= <-]. exists r, rows. split; [reflexivity | exact E].
Qed.

(** C4.  In exact mode the view of a table is built by its turn of the
    loop.  When the count statement of the table fails, its exact count
    is [null] and its row count renders as ["error"], in the line of the
    plain script and in red in the title of the decorated one; a count of
    zero renders as ["0"]; and an exact count is a number only when the
    statement returned it, so that a failure never becomes a zero. *)
Theorem failed_exact_count_renders_error (db : Database)
  (estimated_ : list TableInfo.t)
  (columnsByTable : gmap string (list ColumnInfo.t))
  (i : nat) (t : TableInfo.t) :
  nth_error estimated_ i = Some t ->
  exists v,
    nth_error (buildExactView db estimated_ columnsByTable) i = Some v
    /\ TableView.table_schema v = TableInfo.table_schema t
    /\ TableView.table_name v = TableInfo.table_name t
    /\ ((exists e, select_count db (countSql t) = Throw e) ->
        TableView.exact_rows v = Null
        /\ countLabelFor exact v = "error"
        /\ countLabelFor exact v <> "0"
        /\ Plain.table_line exact v
           = nl ++ "- " ++ TableView.table_schema v ++ "."
             ++ TableView.table_name v ++ " " ++ em_dash ++ " " ++ "error"
             ++ " rows, " ++ BigInt.toString (TableView.column_count v)
             ++ " cols" ++ nl
        /\ In (Ink.Text (Ink.colored "red" false)
                 [Ink.Lit "error"; Ink.Lit " rows"])
             match Ink.title_element exact v with
             | Ink.Text _ children => children
             | _ => []
             end)
    /\ (select_count db (countSql t) = Ok [CountRow.mk "0"] ->
        TableView.exact_rows v = Val 0 /\ countLabelFor exact v = "0")
    /\ (forall z, TableView.exact_rows v = Val z ->
        exists r rows,
          select_count db (countSql t) = Ok (r :: rows)
          /\ BigInt.ofString (CountRow.count r) = Some z).
Proof.
  intros Hi. exists (exact_view db columnsByTable t).
  rewrite buildExactView_map. split.
  { now rewrite nth_error_map, Hi. }
  split; [reflexivity|]. split; [reflexivity|]. split; [|split].
  - intros [e He].
    assert (exact_count db t = Null) as E
      by (unfold exact_count; now rewrite He).
    unfold Plain.table_line, Ink.title_element, countLabelFor.
    cbn [TableView.exact_rows exact_view TableView.table_schema
         TableView.table_name TableView.column_count].
    rewrite E. repeat split; try reflexivity; [discriminate|].
    simpl. auto.
  - intros He. unfold countLabelFor.
    cbn [TableView.exact_rows exact_view]. unfold exact_count.
    rewrite He. split; reflexivity.
  - intros z. cbn [TableView.exact_rows exact_view].
    apply exact_count_value.
Qed.

Lemma failed_exact_count_renders_error_witness :
  exists v,
    nth_error
      (buildExactView Sample.db [Sample.users; Sample.orders] ∅) 1
    = Some v
    /\ TableView.exact_rows v = Null
    /\ countLabelFor exact v = "error"
    /\ countLabelFor exact v <> "0".
Proof.
  destruct (failed_exact_count_renders_error Sample.db
              [Sample.users; Sample.orders] ∅ 1 Sample.orders eq_refl)
    as (v & Hv & _ & _ & Hfail & _).
  exists v. split; [exact Hv|].
  destruct Hfail as (H1 & H2 & H3 & _); [|auto].
  eexists. reflexivity.
Defined.

(** ** The run *)

Lemma ink_fetchColumnsByTable_ok (db : Database) :
  (forall q, catalog_error db q = None) ->
  exists m, Ink.fetchColumnsByTable db = Ok m.
Proof.
  intros H. unfold Ink.fetchColumnsByTable, Ink.fetchNumericRanges,
    Ink.fetchBooleanHistograms, catalog_query.
  rewrite !H. simpl. eauto.
Qed.

Lemma plain_fetchColumnsByTable_ok (db : Database) :
  (forall q, catalog_error db q = None) ->
  exists m, Plain.fetchColumnsByTable db = Ok m.
Proof.
  intros H. unfold Plain.fetchColumnsByTable, catalog_query.
  rewrite !H. simpl. eauto.
Qed.

(** The result of a run that printed the message of the empty catalog
    and nothing else. *)
Lemma no_tables_plain (db : Database) (argv : list string) :
  connect_error db = None ->
  end_error db = None ->
  fetchEstimatedTables db = Ok [] ->
  Plain.listTables db argv
  = match Plain.fetchColumnsByTable db with
    | Ok _ => {| stdout := ["No tables found."]; screen := None;
                 stderr := []; exitCode := 0 |}
    | Throw e => failed e
    end.
Proof.
  intros Hc Hend He. unfold Plain.listTables, finally_end.
  rewrite Hc, Hend, He. simpl.
  now destruct (Plain.fetchColumnsByTable db).
Qed.

Lemma no_tables_ink (engine : Engine) (db : Database) (argv : list string) :
  connect_error db = None ->
  end_error db = None ->
  fetchEstimatedTables db = Ok [] ->
  Ink.listTables engine db argv
  = match Ink.fetchColumnsByTable db with
    | Ok _ => {| stdout := ["No tables found."]; screen := None;
                 stderr := []; exitCode := 0 |}
    | Throw e => failed e
    end.
Proof.
  intros Hc Hend He. unfold Ink.listTables, finally_end.
  rewrite Hc, Hend, He. simpl.
  now destruct (Ink.fetchColumnsByTable db).
Qed.

(** C9.  When the connection opens and closes, the catalog statements
    succeed and the enumeration of tables is empty, a run of either
    script writes the one line ["No tables found."]: no heading, no table
    line, no column line, nothing on the screen of the decorated script,
    no error. *)
Theorem empty_catalog_prints_no_tables (engine : Engine) (db : Database)
  (argv : list string) :
  connect_error db = None ->
  end_error db = None ->
  (forall q, catalog_error db q = None) ->
  select_estimated_tables db = [] ->
  Plain.listTables db argv
  = {| stdout := ["No tables found."]; screen := None;
       stderr := []; exitCode := 0 |}
  /\ Ink.listTables engine db argv
     = {| stdout := ["No tables found."]; screen := None;
          stderr := []; exitCode := 0 |}.
Proof.
  intros Hc Hend Hq He.
  assert (fetchEstimatedTables db = Ok []) as Hf
    by (unfold fetchEstimatedTables, catalog_query; now rewrite Hq, He).
  split.
  - rewrite no_tables_plain by assumption.
    now destruct (plain_fetchColumnsByTable_ok db Hq) as [m ->].
  - rewrite no_tables_ink by assumption.
    now destruct (ink_fetchColumnsByTable_ok db Hq) as [m ->].
Qed.

Lemma empty_catalog_prints_no_tables_witness :
  Plain.listTables Sample.empty_db ["--exact"]
  = {| stdout := ["No tables found."]; screen := None;
       stderr := []; exitCode := 0 |}
  /\ Ink.listTables utc_engine Sample.empty_db ["--exact"]
     = {| stdout := ["No tables found."]; screen := None;
          stderr := []; exitCode := 0 |}.
Proof.
  apply (empty_catalog_prints_no_tables utc_engine Sample.empty_db ["--exact"]);
    [reflexivity | reflexivity | intros q; reflexivity | reflexivity].
Defined.

(** A run on the sample database, for contrast: a heading and a section
    for each table. *)
Example plain_run_sample :
  stdout (Plain.listTables Sample.db ["--exact"])
  = [ "Tables (schema.table) " ++ em_dash ++ " rows (exact), columns:";
      nl ++ "- public.orders " ++ em_dash ++ " error rows, 2 cols" ++ nl;
      "  columns:";
      "  day   date";
      "  paid  boolean";
      nl ++ "- public.users " ++ em_dash ++ " 0 rows, 2 cols" ++ nl;
      "  columns:";
      "  id      integer";
      "  active  boolean" ].
Proof. vm_compute. reflexivity. Qed.

(** ** Statistics collector *)

Section Loop.

Context {V : Type} (key : Columns.t -> string) (entry : Columns.t -> V).

Let step (m : gmap string V) (c : Columns.t) : gmap string V :=
  <[key c := entry c]> m.



Lemma loop_last (post : list Columns.t) (m : gmap string V) (k : string)
  (v : V) :
  m !! k = Some v -> Forall (fun c => key c <> k) post ->
  fold_left step post m !! k = Some v.
Proof.
  revert m. induction post as [|c post IH]; intros m H Hall; simpl;
    [exact H|].
  inversion Hall as [|? ? Hc Hrest]; subst.
  apply IH; [|exact Hrest]. unfold step. now rewrite lookup_insert_ne.
Qed.

Lemma loop_split (pre post : list Columns.t) (col : Columns.t)
  (m : gmap string V) :
  fold_left step (pre ++ col :: post) m
  = fold_left step post (<[key col := entry col]> (fold_left step pre m)).
Proof. now rewrite fold_left_app. Qed.

End Loop.

Lemma fold_left_pointwise {A B : Type} (f g : A -> B -> A) (l : list B)
  (a : A) :
  (forall x y, f x y = g x y) -> fold_left f l a = fold_left g l a.
Proof.
  intros H. revert a. induction l as [|b l IH]; intros a; simpl;
    [reflexivity|]. now rewrite H, IH.
Qed.

Lemma range_step_entry (db : Database) (m : gmap string RangeRow.t)
  (c : Columns.t) :
  Ink.range_step db m c = <[Ink.column_key c := Ink.range_entry db c]> m.
Proof.
  unfold Ink.range_step, Ink.range_entry.
  now destruct (select_range db (Ink.range_sql c)).
Qed.




(** ** The two renderers *)

(** *** The plain renderer is the layout of its content *)

Lemma plain_printColumns_layout (columns : list ColumnInfo.t) :
  Plain.printColumns columns
  = Plain.layout_columns
      (List.map
         (fun c =>
            {| shown_name := ColumnInfo.column_name c;
               shown_type := ColumnInfo.data_type c;
               shown_range := EmptyString;
               shown_values := EmptyString |})
         columns).
Proof.
  destruct columns as [|c columns]; [reflexivity|].
  unfold Plain.printColumns, Plain.layout_columns.
  cbn [List.map]. rewrite !map_map. reflexivity.
Qed.

Lemma plain_renderTables_layout (views : list TableView.t) (mode : Mode) :
  Plain.renderTables views mode = Plain.layout (Plain.content views mode).
Proof.
  unfold Plain.renderTables, Plain.layout, Plain.content.
  cbn [shown_heading shown_tables]. f_equal.
  induction views as [|v views IH]; [reflexivity|].
  cbn [flat_map List.map]. rewrite IH. f_equal.
  cbn [shown_schema shown_table shown_count shown_cols shown_columns].
  unfold Plain.table_line. rewrite plain_printColumns_layout. reflexivity.
Qed.

(** *** The decorated renderer is the layout of its content *)

Lemma traverse_fuse {A B C : Type} (f : A -> result C) (g : A -> result B)
  (h : B -> C) (l : list A) :
  (forall a, f a = let* b := g a in Ok (h b)) ->
  Ink.traverse f l = let* bs := Ink.traverse g l in Ok (List.map h bs).
Proof.
  intros H. induction l as [|a l IH]; [reflexivity|].
  cbn [Ink.traverse]. rewrite H, IH.
  destruct (g a) as [b|e]; [|reflexivity]. cbn [bind].
  destruct (Ink.traverse g l) as [bs|e]; reflexivity.
Qed.

Lemma traverse_length {A B : Type} (f : A -> result B) (l : list A)
  (bs : list B) :
  Ink.traverse f l = Ok bs -> List.length bs = List.length l.
Proof.
  revert bs. induction l as [|a l IH]; intros bs; cbn [Ink.traverse].
  - now intros [= <-].
  - destruct (f a) as [b|e]; [|discriminate]. cbn [bind].
    destruct (Ink.traverse f l) as [bs'|e]; [|discriminate].
    intros [= <-]. simpl. now rewrite (IH bs').
Qed.

Lemma traverse_map_eq {A B C : Type} (f : A -> result B) (p : A -> C)
  (q : B -> C) (l : list A) (bs : list B) :
  (forall a b, f a = Ok b -> q b = p a) ->
  Ink.traverse f l = Ok bs -> List.map q bs = List.map p l.
Proof.
  intros H. revert bs. induction l as [|a l IH]; intros bs;
    cbn [Ink.traverse].
  - now intros [= <-].
  - destruct (f a) as [b|e] eqn:E; [|discriminate]. cbn [bind].
    destruct (Ink.traverse f l) as [bs'|e]; [|discriminate].
    intros [= <-]. simpl. now rewrite (H a b E), (IH bs').
Qed.

Lemma row_element_layout (nameW typeW rangeW : nat) (r : Ink.Row) :
  Ink.row_element nameW typeW rangeW r
  = let* c := Ink.row_content r in Ok (Ink.layout_row nameW typeW rangeW c).
Proof.
  unfold Ink.row_element, Ink.row_content, Ink.label_padEnd.
  destruct (Ink.typeLabel r); reflexivity.
Qed.

Lemma row_content_fields (r : Ink.Row) (c : ColumnContent) :
  Ink.row_content r = Ok c ->
  shown_name c = Ink.name r
  /\ Ink.typeLabel r = LStr (shown_type c)
  /\ shown_range c = Ink.range r
  /\ shown_values c = Ink.values r.
Proof.
  unfold Ink.row_content. destruct (Ink.typeLabel r); [|discriminate..].
  intros [= <-]. auto.
Qed.

Lemma columns_box_layout (engine : Engine) (columns : list ColumnInfo.t) :
  Ink.columns_box engine columns
  = let* rows := Ink.traverse (Ink.column_row engine) columns in
    let* cols := Ink.traverse Ink.row_content rows in
    Ok (Ink.layout_columns cols).
Proof.
  unfold Ink.columns_box.
  destruct (Ink.traverse (Ink.column_row engine) columns) as [rows|e];
    [|reflexivity].
  cbn [bind].
  rewrite (traverse_fuse _ Ink.row_content _ rows (row_element_layout _ _ _)).
  destruct (Ink.traverse Ink.row_content rows) as [cols|e] eqn:E;
    [|reflexivity].
  cbn [bind]. unfold Ink.layout_columns.
  assert (List.map (fun c => String.length (shown_name c)) cols
          = List.map (fun r => String.length (Ink.name r)) rows) as E1.
  { apply (traverse_map_eq Ink.row_content _ _ rows cols); [|exact E].
    intros r c Hc. apply row_content_fields in Hc as (-> & _). reflexivity. }
  assert (List.map (fun c => String.length (shown_type c)) cols
          = List.map
              (fun r => match label_length (Ink.typeLabel r) with
                        | Some n => n
                        | None => O
                        end) rows) as E2.
  { apply (traverse_map_eq Ink.row_content _ _ rows cols); [|exact E].
    intros r c Hc. apply row_content_fields in Hc as (_ & -> & _).
    reflexivity. }
  assert (List.map (fun c => String.length (shown_range c)) cols
          = List.map (fun r => String.length (Ink.range r)) rows) as E3.
  { apply (traverse_map_eq Ink.row_content _ _ rows cols); [|exact E].
    intros r c Hc. apply row_content_fields in Hc as (_ & _ & -> & _).
    reflexivity. }
  rewrite E1, E2, E3. reflexivity.
Qed.

Lemma toString_not_error (z : Z) : BigInt.toString z <> "error".
Proof.
  destruct z as [|p|p]; [discriminate| |discriminate].
  intros E. pose proof (toString_nonneg_digits (Z.pos p) ltac:(lia)) as H.
  rewrite E in H. discriminate H.
Qed.

Lemma count_color (v : TableView.t) :
  match TableView.exact_rows v with
  | Null => "red"
  | _ => "green"
  end
  = if String.eqb (countLabelFor exact v) "error" then "red" else "green".
Proof.
  unfold countLabelFor. destruct (TableView.exact_rows v) as [| |z];
    try reflexivity.
  cbn [toString_or_0].
  destruct (String.eqb_spec (BigInt.toString z) "error") as [E|_];
    [|reflexivity].
  now apply toString_not_error in E.
Qed.

Lemma table_box_layout (engine : Engine) (mode : Mode) (v : TableView.t) :
  Ink.table_box engine mode v
  = let* t := Ink.table_content engine mode v in
    Ok (Ink.layout_table mode t).
Proof.
  unfold Ink.table_box, Ink.table_content, Ink.layout_table,
    Ink.title_element.
  cbn [shown_schema shown_table shown_count shown_cols shown_columns].
  assert (match mode with
          | estimated => "magenta"
          | exact => match TableView.exact_rows v with
                     | Null => "red"
                     | _ => "green"
                     end
          end
          = match mode with
            | estimated => "magenta"
            | exact => if String.eqb (countLabelFor mode v) "error"
                       then "red" else "green"
            end) as ->
    by (destruct mode; [reflexivity | apply count_color]).
  destruct (TableView.columns v) as [|c columns] eqn:Ec; [reflexivity|].
  rewrite columns_box_layout.
  destruct (Ink.traverse (Ink.column_row engine) (c :: columns))
    as [rows|e] eqn:Er; [|reflexivity].
  cbn [bind].
  destruct (Ink.traverse Ink.row_content rows) as [cols|e] eqn:Ecs;
    [|reflexivity].
  cbn [bind shown_schema shown_table shown_count shown_cols shown_columns].
  apply traverse_length in Er, Ecs.
  destruct cols as [|c0 cols]; [simpl in *; lia|]. reflexivity.
Qed.

Lemma ink_renderTables_layout (engine : Engine) (views : list TableView.t)
  (mode : Mode) :
  Ink.renderTables engine views mode
  = let* c := Ink.content engine views mode in Ok (Ink.layout mode c).
Proof.
  unfold Ink.renderTables, Ink.content.
  rewrite (traverse_fuse _ (Ink.table_content engine mode) _ views
             (table_box_layout engine mode)).
  destruct (Ink.traverse (Ink.table_content engine mode) views);
    reflexivity.
Qed.

(** *** What the two contents share *)

Lemma column_row_fields (engine : Engine) (c : ColumnInfo.t) (r : Ink.Row) :
  Ink.column_row engine c = Ok r ->
  Ink.name r = ColumnInfo.column_name c
  /\ Ink.typeLabel r = humanDataType (ColumnInfo.data_type c).
Proof.
  unfold Ink.column_row.
  match goal with
  | |- (let* range := ?x in _) = _ -> _ => destruct x as [range|e]
  end; [|discriminate].
  cbn [bind]. intros [= <-]. auto.
Qed.

Lemma column_content_fields (engine : Engine) (c : ColumnInfo.t)
  (r : Ink.Row) (s : ColumnContent) :
  Ink.column_row engine c = Ok r -> Ink.row_content r = Ok s ->
  shown_name s = ColumnInfo.column_name c
  /\ humanDataType (ColumnInfo.data_type c) = LStr (shown_type s).
Proof.
  intros Hr Hs. apply column_row_fields in Hr as [E1 E2].
  apply row_content_fields in Hs as (-> & E3 & _).
  split; [exact E1 | congruence].
Qed.

Lemma traverse_ok {A B : Type} (f : A -> result B) (p : A -> bool)
  (l : list A) :
  (forall a, p a = true -> exists b, f a = Ok b) ->
  forallb p l = true -> exists bs, Ink.traverse f l = Ok bs.
Proof.
  intros H. induction l as [|a l IH]; cbn [forallb Ink.traverse].
  - eauto.
  - intros Hp. apply andb_prop in Hp as [Ha Hl].
    destruct (H a Ha) as [b ->]. destruct (IH Hl) as [bs ->].
    cbn [bind]. eauto.
Qed.

Lemma traverse_compose_ok {A B C : Type} (f : A -> result B)
  (g : B -> result C) (p : A -> bool) (l : list A) :
  (forall a, p a = true -> exists b c, f a = Ok b /\ g b = Ok c) ->
  forallb p l = true ->
  exists bs cs, Ink.traverse f l = Ok bs /\ Ink.traverse g bs = Ok cs.
Proof.
  intros H. induction l as [|a l IH]; cbn [forallb Ink.traverse].
  - exists [], []. auto.
  - intros Hp. apply andb_prop in Hp as [Ha Hl].
    destruct (H a Ha) as (b & c & Eb & Ec).
    destruct (IH Hl) as (bs & cs & Ebs & Ecs).
    exists (b :: bs), (c :: cs). rewrite Eb, Ebs. cbn [bind Ink.traverse].
    rewrite Ec, Ecs. auto.
Qed.

Lemma showable_column_ok (engine : Engine) (c : ColumnInfo.t) :
  Ink.showable_column c = true ->
  exists r s, Ink.column_row engine c = Ok r /\ Ink.row_content r = Ok s.
Proof.
  unfold Ink.showable_column. intros H.
  destruct (humanDataType (ColumnInfo.data_type c)) as [lbl| |] eqn:El;
    try discriminate H.
  assert (exists r, Ink.column_row engine c = Ok r) as [r Er].
  { unfold Ink.column_row.
    destruct (isNumericDataType (ColumnInfo.data_type c)
              && not_null (ColumnInfo.min c) && not_null (ColumnInfo.max c));
      [cbn [bind]; eauto|].
    destruct (isTemporalDataType (ColumnInfo.data_type c)) eqn:Et;
      [|cbn [andb bind]; eauto].
    destruct (not_null (ColumnInfo.min c)) eqn:Nmin;
      [|cbn [andb bind]; eauto].
    destruct (not_null (ColumnInfo.max c)) eqn:Nmax;
      [|cbn [andb bind]; eauto].
    cbn [andb]. unfold Ink.formatTemporalRange_call.
    destruct (isTimeOnly (ColumnInfo.data_type c)) eqn:Eo.
    - cbn [andb negb] in H.
      destruct (ColumnInfo.min c), (ColumnInfo.max c);
        try discriminate H; try discriminate Nmin; try discriminate Nmax.
      cbn [bind]. eauto.
    - destruct (ColumnInfo.min c), (ColumnInfo.max c); cbn [bind]; eauto. }
  exists r. pose proof (column_row_fields _ _ _ Er) as [_ Ety].
  unfold Ink.row_content. rewrite Ety, El. eauto.
Qed.

Lemma table_content_ok (engine : Engine) (mode : Mode) (v : TableView.t) :
  forallb Ink.showable_column (TableView.columns v) = true ->
  exists t, Ink.table_content engine mode v = Ok t.
Proof.
  intros H. unfold Ink.table_content.
  destruct (traverse_compose_ok (Ink.column_row engine) Ink.row_content
              Ink.showable_column (TableView.columns v)
              (showable_column_ok engine) H) as (rows & cols & -> & Ec).
  cbn [bind]. rewrite Ec. cbn [bind]. eauto.
Qed.

Lemma content_ok (engine : Engine) (views : list TableView.t) (mode : Mode) :
  Ink.showable views = true ->
  exists shown, Ink.content engine views mode = Ok shown.
Proof.
  intros H. unfold Ink.content.
  destruct (traverse_ok (Ink.table_content engine mode)
              (fun v => forallb Ink.showable_column (TableView.columns v))
              views (table_content_ok engine mode) H) as [ts ->].
  cbn [bind]. eauto.
Qed.

Lemma table_content_fields (engine : Engine) (mode : Mode) (v : TableView.t)
  (t : TableContent) :
  Ink.table_content engine mode v = Ok t ->
  shown_schema t = TableView.table_schema v
  /\ shown_table t = TableView.table_name v
  /\ shown_count t = countLabelFor mode v
  /\ shown_cols t = BigInt.toString (TableView.column_count v)
  /\ List.map shown_name (shown_columns t)
     = List.map ColumnInfo.column_name (TableView.columns v)
  /\ List.map (fun s => LStr (shown_type s)) (shown_columns t)
     = List.map (fun c => humanDataType (ColumnInfo.data_type c))
         (TableView.columns v).
Proof.
  unfold Ink.table_content.
  destruct (Ink.traverse (Ink.column_row engine) (TableView.columns v))
    as [rows|e] eqn:Er; [|discriminate].
  cbn [bind].
  destruct (Ink.traverse Ink.row_content rows) as [cols|e] eqn:Ec;
    [|discriminate].
  cbn [bind]. intros [= <-].
  cbn [shown_schema shown_table shown_count shown_cols shown_columns].
  repeat split; try reflexivity.
  - clear -Er Ec. revert rows cols Er Ec.
    induction (TableView.columns v) as [|c l IH]; intros rows cols Er Ec.
    + cbn [Ink.traverse] in Er. injection Er as <-.
      cbn [Ink.traverse] in Ec. injection Ec as <-. reflexivity.
    + cbn [Ink.traverse] in Er.
      destruct (Ink.column_row engine c) as [r|] eqn:E1; [|discriminate].
      destruct (Ink.traverse (Ink.column_row engine) l) as [rs|];
        [|discriminate].
      cbn [bind] in Er. injection Er as <-.
      cbn [Ink.traverse] in Ec.
      destruct (Ink.row_content r) as [s|] eqn:E2; [|discriminate].
      destruct (Ink.traverse Ink.row_content rs) as [ss|] eqn:E3;
        [|discriminate].
      cbn [bind] in Ec. injection Ec as <-.
      cbn [List.map]. rewrite (IH rs ss eq_refl E3).
      now destruct (column_content_fields _ _ _ _ E1 E2) as [-> _].
  - clear -Er Ec. revert rows cols Er Ec.
    induction (TableView.columns v) as [|c l IH]; intros rows cols Er Ec.
    + cbn [Ink.traverse] in Er. injection Er as <-.
      cbn [Ink.traverse] in Ec. injection Ec as <-. reflexivity.
    + cbn [Ink.traverse] in Er.
      destruct (Ink.column_row engine c) as [r|] eqn:E1; [|discriminate].
      destruct (Ink.traverse (Ink.column_row engine) l) as [rs|];
        [|discriminate].
      cbn [bind] in Er. injection Er as <-.
      cbn [Ink.traverse] in Ec.
      destruct (Ink.row_content r) as [s|] eqn:E2; [|discriminate].
      destruct (Ink.traverse Ink.row_content rs) as [ss|] eqn:E3;
        [|discriminate].
      cbn [bind] in Ec. injection Ec as <-.
      cbn [List.map]. rewrite (IH rs ss eq_refl E3).
      now destruct (column_content_fields _ _ _ _ E1 E2) as [_ ->].
Qed.

Lemma contents_outline (engine : Engine) (views : list TableView.t)
  (mode : Mode) (shown : Content) :
  Ink.content engine views mode = Ok shown ->
  outline shown = outline (Plain.content views mode).
Proof.
  unfold Ink.content.
  destruct (Ink.traverse (Ink.table_content engine mode) views)
    as [ts|e] eqn:E; [|discriminate].
  cbn [bind]. intros [= <-]. unfold outline, Plain.content.
  cbn [shown_heading shown_tables]. f_equal. rewrite map_map.
  apply (traverse_map_eq (Ink.table_content engine mode) _ _ views ts);
    [|exact E].
  intros v t Ht. apply table_content_fields in Ht as (-> & -> & -> & -> & -> & _).
  cbn [shown_schema shown_table shown_count shown_cols shown_columns].
  now rewrite map_map.
Qed.

Lemma contents_types (engine : Engine) (views : list TableView.t)
  (mode : Mode) (shown : Content) :
  Ink.content engine views mode = Ok shown ->
  List.map (fun t => List.map (fun s => LStr (shown_type s)) (shown_columns t))
    (shown_tables shown)
  = List.map
      (fun v =>
         List.map (fun c => humanDataType (ColumnInfo.data_type c))
           (TableView.columns v))
      views.
Proof.
  unfold Ink.content.
  destruct (Ink.traverse (Ink.table_content engine mode) views)
    as [ts|e] eqn:E; [|discriminate].
  cbn [bind]. intros [= <-]. cbn [shown_tables].
  apply (traverse_map_eq (Ink.table_content engine mode) _ _ views ts);
    [|exact E].
  intros v t Ht. now apply table_content_fields in Ht as (_ & _ & _ & _ & _ & ->).
Qed.

(** C1, as stated, fails: for a table with one [integer] column whose
    bounds are 1 and 5, the decorated renderer shows the type [int] and
    the range [1-5]; the plain renderer shows the type [integer] and no
    range, and the text [1-5] is in none of its lines. *)
Lemma renderers_differ_in_content :
  match Ink.content utc_engine [Sample.numbers_view] estimated,
        Ink.renderTables utc_engine [Sample.numbers_view] estimated with
  | Ok shown, Ok app =>
      shown <> Plain.content [Sample.numbers_view] estimated
      /\ List.map shown_columns (shown_tables shown)
         = [[ {| shown_name := "n"; shown_type := "int";
                 shown_range := "1-5"; shown_values := EmptyString |} ]]
      /\ List.map shown_columns
           (shown_tables (Plain.content [Sample.numbers_view] estimated))
         = [[ {| shown_name := "n"; shown_type := "integer";
                 shown_range := EmptyString; shown_values := EmptyString |} ]]
      /\ occurs "1-5" (Ink.text_of app) = true
      /\ existsb (occurs "1-5")
           (Plain.renderTables [Sample.numbers_view] estimated) = false
  | _, _ => False
  end.
Proof.
  vm_compute. repeat split; try reflexivity. discriminate.
Qed.

(** C1, amended.  Each renderer is the layout of its content.  For all
    views that the decorated renderer can show and for both modes, the
    two contents have the same heading and, table by table, the same
    schema, name, row-count label and number of columns, and the same
    column names in the same order.  The plain renderer shows the
    declared type of each column and neither range nor values; the
    decorated renderer shows the humanized type. *)
Theorem renderers_share_outline (engine : Engine) (views : list TableView.t)
  (mode : Mode) :
  Plain.renderTables views mode = Plain.layout (Plain.content views mode)
  /\ Ink.renderTables engine views mode
     = (let* c := Ink.content engine views mode in Ok (Ink.layout mode c))
  /\ (Ink.showable views = true ->
      exists shown,
        Ink.content engine views mode = Ok shown
        /\ outline shown = outline (Plain.content views mode)
        /\ List.map
             (fun t => List.map (fun s => LStr (shown_type s)) (shown_columns t))
             (shown_tables shown)
           = List.map
               (fun v =>
                  List.map (fun c => humanDataType (ColumnInfo.data_type c))
                    (TableView.columns v))
               views)
  /\ List.map (fun t => List.map shown_type (shown_columns t))
       (shown_tables (Plain.content views mode))
     = List.map
         (fun v => List.map ColumnInfo.data_type (TableView.columns v)) views
  /\ Forall
       (fun t =>
          Forall (fun s => shown_range s = EmptyString /\ shown_values s = EmptyString)
            (shown_columns t))
       (shown_tables (Plain.content views mode)).
Proof.
  split; [apply plain_renderTables_layout|].
  split; [apply ink_renderTables_layout|]. split; [|split].
  - intros H. destruct (content_ok engine views mode H) as [shown E].
    exists shown. split; [exact E|]. split.
    + now apply (contents_outline engine).
    + now apply (contents_types engine views mode).
  - unfold Plain.content. cbn [shown_tables]. rewrite map_map.
    apply map_ext. intros v. cbn [shown_columns]. now rewrite map_map.
  - unfold Plain.content. cbn [shown_tables].
    apply List.Forall_forall. intros t Ht.
    apply in_map_iff in Ht as (v & <- & _). cbn [shown_columns].
    apply List.Forall_forall. intros s Hs.
    apply in_map_iff in Hs as (c & <- & _). auto.
Qed.

Lemma renderers_share_outline_witness :
  exists shown,
    Ink.content utc_engine [Sample.numbers_view] exact = Ok shown
    /\ outline shown = outline (Plain.content [Sample.numbers_view] exact).
Proof.
  destruct (renderers_share_outline utc_engine [Sample.numbers_view] exact)
    as (_ & _ & H & _).
  destruct H as (shown & E & Ho & _); [reflexivity|].
  exists shown. auto.
Defined.

(** * Further properties of the scripts *)

(** ** Quoted identifiers in the statements *)

Lemma string_app_nil_r (a : string) : a ++ EmptyString = a.
Proof. induction a as [|x a IH]; simpl; [reflexivity | f_equal; exact IH]. Qed.

Lemma string_app_assoc (a b c : string) : (a ++ b) ++ c = a ++ (b ++ c).
Proof. induction a as [|x a IH]; simpl; [reflexivity | f_equal; exact IH]. Qed.

Lemma string_app_inv_head (a b c : string) : a ++ b = a ++ c -> b = c.
Proof.
  induction a as [|x a IH]; simpl; [auto|]. intros [= H]. auto.
Qed.

Lemma read_quoted_body_escaped (s r : string) :
  no_quote_ahead r = true ->
  read_quoted_body
    (replace_all_char dq (String dq (String dq EmptyString)) s
     ++ String dq r)
  = Some (s, r).
Proof.
  intros Hr. unfold no_quote_ahead, is_dq in Hr.
  induction s as [|a s IH]; simpl.
  - destruct r as [|b r]; [reflexivity|]. unfold is_dq.
    destruct (Ascii.eqb b dq); [discriminate | reflexivity].
  - destruct (Ascii.eqb a dq) eqn:E.
    + apply Ascii.eqb_eq in E. subst a. simpl. now rewrite IH.
    + simpl. unfold is_dq. now rewrite E, IH.
Qed.

(** A quoted identifier followed by a text that does not start with a
    quote is read back as the identifier and that text. *)
Lemma read_quoted_quoteIdent (s r : string) :
  no_quote_ahead r = true -> read_quoted (quoteIdent s ++ r) = Some (s, r).
Proof.
  intros Hr. unfold quoteIdent. simpl. rewrite string_app_assoc. simpl.
  now apply read_quoted_body_escaped.
Qed.

(** X1.  Two identifiers with the same quoted text are the same
    identifier. *)
Theorem quoteIdent_injective (a b : string) :
  quoteIdent a = quoteIdent b -> a = b.
Proof.
  intros H.
  pose proof (read_quoted_quoteIdent a EmptyString eq_refl) as Ha.
  pose proof (read_quoted_quoteIdent b EmptyString eq_refl) as Hb.
  rewrite string_app_nil_r in Ha, Hb. rewrite H in Ha. congruence.
Qed.

Lemma quoteIdent_injective_witness : "a.b" = "a.b".
Proof. apply (quoteIdent_injective "a.b" "a.b"). reflexivity. Defined.

Lemma quoted_pair_inj (s1 n1 s2 n2 r1 r2 : string) :
  no_quote_ahead r1 = true -> no_quote_ahead r2 = true ->
  quoteIdent s1 ++ "." ++ quoteIdent n1 ++ r1
  = quoteIdent s2 ++ "." ++ quoteIdent n2 ++ r2 ->
  s1 = s2 /\ n1 = n2 /\ r1 = r2.
Proof.
  intros H1 H2 H.
  pose proof (read_quoted_quoteIdent s1 ("." ++ quoteIdent n1 ++ r1) eq_refl)
    as Ha.
  pose proof (read_quoted_quoteIdent s2 ("." ++ quoteIdent n2 ++ r2) eq_refl)
    as Hb.
  rewrite H in Ha. rewrite Ha in Hb. injection Hb as Hs Hrest.
  split; [exact Hs|].
  rewrite !string_app_assoc in Hrest. simpl in Hrest.
  pose proof (read_quoted_body_escaped n1 r1 H1) as Hc.
  rewrite Hrest, (read_quoted_body_escaped n2 r2 H2) in Hc.
  injection Hc as -> ->. auto.
Qed.

(** X2.  The count statements of two tables are the same text only when
    the tables have the same schema and the same name, although their
    keys [schema.name] may coincide. *)
Theorem countSql_unambiguous (t1 t2 : TableInfo.t) :
  countSql t1 = countSql t2 ->
  TableInfo.table_schema t1 = TableInfo.table_schema t2
  /\ TableInfo.table_name t1 = TableInfo.table_name t2.
Proof.
  unfold countSql. intros H. apply string_app_inv_head in H.
  rewrite <- (string_app_nil_r (quoteIdent (TableInfo.table_name t1))) in H.
  rewrite <- (string_app_nil_r (quoteIdent (TableInfo.table_name t2))) in H.
  apply quoted_pair_inj in H; [|reflexivity..]. tauto.
Qed.

Lemma countSql_unambiguous_witness :
  TableInfo.table_schema Sample.users = TableInfo.table_schema Sample.users
  /\ TableInfo.table_name Sample.users = TableInfo.table_name Sample.users.
Proof. apply (countSql_unambiguous Sample.users Sample.users). reflexivity. Defined.

(** The keys of two different tables can be the same text; their count
    statements are not. *)
Example table_key_collision :
  table_key "a.b" "c" = table_key "a" "b.c"
  /\ countSql (TableInfo.mk "a.b" "c" 0 0) <> countSql (TableInfo.mk "a" "b.c" 0 0).
Proof. split; [reflexivity | discriminate]. Qed.

Lemma quoted_then_text (s1 s2 r1 r2 : string) :
  no_quote_ahead r1 = true -> no_quote_ahead r2 = true ->
  quoteIdent s1 ++ r1 = quoteIdent s2 ++ r2 -> s1 = s2 /\ r1 = r2.
Proof.
  intros H1 H2 H.
  pose proof (read_quoted_quoteIdent s1 r1 H1) as Ha.
  rewrite H, (read_quoted_quoteIdent s2 r2 H2) in Ha.
  injection Ha as -> ->. auto.
Qed.

(** X3.  The statistics statements of two columns are the same text only
    when the columns have the same schema, table and name. *)
Theorem statistics_sql_unambiguous (c1 c2 : Columns.t) :
  Ink.range_sql c1 = Ink.range_sql c2 \/ Ink.hist_sql c1 = Ink.hist_sql c2 ->
  Columns.table_schema c1 = Columns.table_schema c2
  /\ Columns.table_name c1 = Columns.table_name c2
  /\ Columns.column_name c1 = Columns.column_name c2.
Proof.
  intros [H|H].
  - unfold Ink.range_sql in H. apply string_app_inv_head in H.
    apply quoted_then_text in H as [Hc H]; [|reflexivity..].
    do 3 apply string_app_inv_head in H. rewrite Hc in H.
    do 4 apply string_app_inv_head in H.
    rewrite <- (string_app_nil_r (quoteIdent (Columns.table_name c1))) in H.
    rewrite <- (string_app_nil_r (quoteIdent (Columns.table_name c2))) in H.
    apply quoted_pair_inj in H; [|reflexivity..]. tauto.
  - unfold Ink.hist_sql in H. do 3 apply string_app_inv_head in H.
    apply quoted_then_text in H as [Hc H]; [|reflexivity..].
    do 3 apply string_app_inv_head in H. rewrite Hc in H.
    do 4 apply string_app_inv_head in H.
    rewrite <- (string_app_nil_r (quoteIdent (Columns.table_name c1))) in H.
    rewrite <- (string_app_nil_r (quoteIdent (Columns.table_name c2))) in H.
    apply quoted_pair_inj in H; [|reflexivity..]. tauto.
Qed.

Lemma statistics_sql_unambiguous_witness :
  Columns.table_schema Sample.users_id = Columns.table_schema Sample.users_id
  /\ Columns.table_name Sample.users_id = Columns.table_name Sample.users_id
  /\ Columns.column_name Sample.users_id = Columns.column_name Sample.users_id.
Proof.
  apply (statistics_sql_unambiguous Sample.users_id Sample.users_id).
  left. reflexivity.
Defined.

(** ** Arguments of the command line *)

Lemma split_at_none (c : ascii) (s : string) :
  split_at c s = None <-> includes_char c s = false.
Proof.
  induction s as [|a s IH]; simpl; [tauto|].
  destruct (Ascii.eqb a c); simpl; [split; discriminate|].
  destruct (split_at c s) as [[l r]|]; split; intros H;
    try discriminate; try reflexivity.
  - apply IH in H. discriminate.
  - now apply IH.
Qed.

Lemma parseArgs_fold (argv : list string) :
  parseArgs argv = fold_left parseArgs_step argv ([], []).
Proof.
  unfold parseArgs. apply fold_left_pointwise.
  intros [flags options] arg. reflexivity.
Qed.

Lemma parseArgs_step_flags (acc : list string * list (string * string))
  (arg : string) :
  fst (parseArgs_step acc arg)
  = (fst acc ++ if is_flag arg then [arg] else [])%list.
Proof.
  destruct acc as [flags options]. unfold parseArgs_step, is_flag.
  destruct (startsWith "--" arg); cbn [andb fst]; [|now rewrite app_nil_r].
  destruct (split_at "=" arg) as [[k rest]|] eqn:E.
  - assert (includes_char "=" arg = true) as ->.
    { destruct (includes_char "=" arg) eqn:Ei; [reflexivity|].
      apply split_at_none in Ei. congruence. }
    cbn [negb fst]. now rewrite app_nil_r.
  - apply split_at_none in E. now rewrite E.
Qed.

Lemma parseArgs_flags_from (argv : list string)
  (acc : list string * list (string * string)) :
  fst (fold_left parseArgs_step argv acc)
  = (fst acc ++ List.filter is_flag argv)%list.
Proof.
  revert acc. induction argv as [|a argv IH]; intros acc;
    cbn [fold_left List.filter]; [now rewrite app_nil_r|].
  rewrite IH, parseArgs_step_flags, <- app_assoc.
  now destruct (is_flag a).
Qed.

(** X4.  The flags that [parseArgs] returns are the arguments that start
    with two dashes and hold no equal sign, in their order; so the flag
    [--exact] is set exactly when [--exact] itself is an argument, and
    [--exact=true], like any other argument, does not set it. *)
Theorem parseArgs_flags (argv : list string) :
  fst (parseArgs argv) = List.filter is_flag argv
  /\ (has_flag (fst (parseArgs argv)) "--exact" = true <-> In "--exact" argv).
Proof.
  assert (fst (parseArgs argv) = List.filter is_flag argv) as E
    by (now rewrite parseArgs_fold, parseArgs_flags_from).
  split; [exact E|]. rewrite E. unfold has_flag. rewrite existsb_exists.
  split.
  - intros (x & Hx & Heq). apply String.eqb_eq in Heq. subst x.
    now apply filter_In in Hx.
  - intros H. exists "--exact". split; [|reflexivity].
    apply filter_In. split; [exact H | reflexivity].
Qed.

(** ** Grouping the columns by table *)

Section Grouping.

Variable info : Columns.t -> ColumnInfo.t.

Let step (byTable : gmap string (list ColumnInfo.t)) (r : Columns.t) :=
  push_column byTable
    (table_key (Columns.table_schema r) (Columns.table_name r)) (info r).

Lemma grouping_lookup (rows : list Columns.t)
  (m : gmap string (list ColumnInfo.t)) (key : string) :
  match fold_left step rows m !! key with
  | Some cols => cols
  | None => []
  end
  = (match m !! key with Some cols => cols | None => [] end
     ++ List.map info (rows_of_key key rows))%list.
Proof.
  revert m. induction rows as [|r rows IH]; intros m;
    cbn [fold_left rows_of_key List.filter List.map];
    [now rewrite app_nil_r|].
  fold (rows_of_key key rows). rewrite IH. unfold step, push_column.
  destruct (String.eqb_spec
              (table_key (Columns.table_schema r) (Columns.table_name r)) key)
    as [->|Hne].
  - rewrite lookup_insert_eq. cbn [List.map]. now rewrite <- app_assoc.
  - now rewrite lookup_insert_ne.
Qed.

Lemma grouping_columns_of (rows : list Columns.t) (schema name : string) :
  columns_of (fold_left step rows ∅) schema name
  = List.map info (rows_of_key (table_key schema name) rows).
Proof.
  unfold columns_of.
  rewrite (grouping_lookup rows ∅ (table_key schema name)).
  now rewrite lookup_empty.
Qed.

End Grouping.


(** X5.  In both scripts the columns that [fetchColumnsByTable] files
    under the key of a table are the rows of the columns statement that
    have this key, all of them and in the order of the statement, each
    with its name and declared type; a table without such a row has no
    columns.  The rows of two tables whose keys are the same text are
    filed together. *)
Theorem fetchColumnsByTable_groups (db : Database) (schema name : string) :
  match Plain.fetchColumnsByTable db with
  | Ok byTable =>
      List.map name_and_type (columns_of byTable schema name)
      = List.map (fun r => (Columns.column_name r, Columns.data_type r))
          (rows_of_key (table_key schema name) (select_columns db))
  | Throw e => catalog_error db QColumns = Some e
  end
  /\ match Ink.fetchColumnsByTable db with
     | Ok byTable =>
         List.map name_and_type (columns_of byTable schema name)
         = List.map (fun r => (Columns.column_name r, Columns.data_type r))
             (rows_of_key (table_key schema name) (select_columns db))
     | Throw e =>
         catalog_error db QColumns = Some e
         \/ catalog_error db QNumericColumns = Some e
         \/ catalog_error db QBooleanColumns = Some e
     end.
Proof.
  split.
  - unfold Plain.fetchColumnsByTable, catalog_query.
    destruct (catalog_error db QColumns) as [e|]; [reflexivity|].
    cbn [bind].
    rewrite (grouping_columns_of
               (fun r => ColumnInfo.mk (Columns.column_name r)
                           (Columns.data_type r)
                           Undefined Undefined Undefined Undefined)).
    now rewrite map_map.
  - destruct (catalog_error db QColumns) as [e1|] eqn:E1.
    { unfold Ink.fetchColumnsByTable, catalog_query. rewrite E1.
      cbn [bind]. auto. }
    destruct (catalog_error db QNumericColumns) as [e2|] eqn:E2.
    { unfold Ink.fetchColumnsByTable, Ink.fetchNumericRanges, catalog_query.
      rewrite E1, E2. cbn [bind]. auto. }
    destruct (catalog_error db QBooleanColumns) as [e3|] eqn:E3.
    { unfold Ink.fetchColumnsByTable, Ink.fetchNumericRanges,
        Ink.fetchBooleanHistograms, catalog_query.
      rewrite E1, E2, E3. cbn [bind]. auto. }
    assert (Ink.fetchColumnsByTable db
            = Ok (fold_left
                    (fun byTable r =>
                       push_column byTable
                         (table_key (Columns.table_schema r)
                            (Columns.table_name r))
                         (ink_column_info
                            (fold_left (Ink.range_step db)
                               (select_numeric_columns db) ∅)
                            (fold_left (Ink.hist_step db)
                               (select_boolean_columns db) ∅) r))
                    (select_columns db) ∅)) as ->.
    { unfold Ink.fetchColumnsByTable, Ink.fetchNumericRanges,
        Ink.fetchBooleanHistograms, catalog_query.
      rewrite E1, E2, E3. reflexivity. }
    rewrite grouping_columns_of. now rewrite map_map.
Qed.

(** ** View builder *)

(** X6.  Both view builders return one view for each table descriptor,
    in the order of the descriptors, with the schema, the name and the
    column count of the descriptor and the columns filed under its key,
    none when the key is missing.  The views of the two modes differ in
    their row counts only: an estimated view has the estimate and no
    exact count, an exact view has no estimate. *)
Theorem views_follow_descriptors (db : Database)
  (estimated_ : list TableInfo.t)
  (columnsByTable : gmap string (list ColumnInfo.t)) :
  List.map view_outline (buildEstimatedView estimated_ columnsByTable)
  = List.map
      (fun t =>
         (TableInfo.table_schema t, TableInfo.table_name t,
          TableInfo.column_count t,
          match columnsByTable
                !! table_key (TableInfo.table_schema t)
                     (TableInfo.table_name t) with
          | Some cols => cols
          | None => []
          end))
      estimated_
  /\ List.map view_outline (buildExactView db estimated_ columnsByTable)
     = List.map view_outline (buildEstimatedView estimated_ columnsByTable)
  /\ List.map TableView.estimated_rows
       (buildEstimatedView estimated_ columnsByTable)
     = List.map (fun t => Val (TableInfo.estimated_rows t)) estimated_
  /\ Forall (fun v => TableView.exact_rows v = Undefined)
       (buildEstimatedView estimated_ columnsByTable)
  /\ Forall (fun v => TableView.estimated_rows v = Undefined)
       (buildExactView db estimated_ columnsByTable).
Proof.
  rewrite buildExactView_map. unfold buildEstimatedView.
  rewrite !map_map. repeat split; try reflexivity.
  - apply List.Forall_forall. intros v Hv.
    apply in_map_iff in Hv as (t & <- & _). reflexivity.
  - apply List.Forall_forall. intros v Hv.
    apply in_map_iff in Hv as (t & <- & _). reflexivity.
Qed.

(** ** Alignment of the columns *)

Lemma repeat_char_length (c : ascii) (n : nat) :
  String.length (repeat_char c n) = n.
Proof. induction n as [|n IH]; simpl; [reflexivity | now rewrite IH]. Qed.

Lemma padEnd_length (n : nat) (s : string) :
  String.length (padEnd n s) = Nat.max n (String.length s).
Proof.
  unfold padEnd. rewrite string_app_length, repeat_char_length. lia.
Qed.

Lemma padEnd_prefix (n : nat) (s : string) :
  String.prefix s (padEnd n s) = true.
Proof.
  unfold padEnd. generalize (repeat_char " " (n - String.length s)).
  intros t. induction s as [|a s IH]; simpl.
  - now destruct t.
  - destruct (ascii_dec a a); [exact IH | congruence].
Qed.

Lemma max_list_ge (x : nat) (xs : list nat) :
  In x xs -> (x <= max_list xs)%nat.
Proof.
  unfold max_list. induction xs as [|y xs IH]; simpl; [tauto|].
  intros [->|H]; [lia|]. specialize (IH H). lia.
Qed.

(** X7.  [printColumns] writes nothing for a table without columns.
    Otherwise it writes a heading line and then one line for each column,
    in order: two spaces, the name in a cell, two spaces, the declared
    type; all the cells of the table have the same width, the length of
    its longest column name, and each starts with its name. *)
Theorem printColumns_aligned (columns : list ColumnInfo.t) :
  Plain.printColumns [] = []
  /\ (columns <> [] ->
      exists lines,
        Plain.printColumns columns = "  columns:" :: lines
        /\ Forall2
             (fun line c =>
                exists cell,
                  line = "  " ++ cell ++ "  " ++ ColumnInfo.data_type c
                  /\ String.length cell
                     = max_list
                         (List.map
                            (fun c => String.length (ColumnInfo.column_name c))
                            columns)
                  /\ String.prefix (ColumnInfo.column_name c) cell = true)
             lines columns).
Proof.
  split; [reflexivity|]. intros Hne.
  destruct columns as [|c0 columns]; [congruence|].
  set (all := c0 :: columns).
  eexists. split; [reflexivity|].
  set (w := max_list
              (List.map (fun c => String.length (ColumnInfo.column_name c))
                 all)).
  assert (forall c, In c all ->
                    (String.length (ColumnInfo.column_name c) <= w)%nat) as Hw.
  { intros c Hc. apply max_list_ge.
    apply (in_map (fun c => String.length (ColumnInfo.column_name c))).
    exact Hc. }
  clearbody w. induction all as [|c l IH]; cbn [List.map]; constructor.
  - exists (padEnd w (ColumnInfo.column_name c)).
    split; [reflexivity|]. split; [|apply padEnd_prefix].
    rewrite padEnd_length. specialize (Hw c (or_introl eq_refl)). lia.
  - apply IH. intros c' Hc'. apply Hw. now right.
Qed.

Lemma printColumns_aligned_witness :
  exists lines,
    Plain.printColumns (TableView.columns Sample.numbers_view)
    = "  columns:" :: lines
    /\ List.length lines = 1%nat.
Proof.
  destruct (printColumns_aligned (TableView.columns Sample.numbers_view))
    as [_ H].
  destruct H as (lines & E & F); [discriminate|].
  exists lines. split; [exact E|].
  apply Forall2_length in F. exact F.
Defined.

Lemma layout_row_aligned (nameW typeW rangeW : nat) (c : ColumnContent) :
  (String.length (shown_name c) <= nameW)%nat ->
  (String.length (shown_type c) <= typeW)%nat ->
  (String.length (shown_range c) <= rangeW)%nat ->
  aligned_cells nameW typeW rangeW
    (cell_texts (Ink.layout_row nameW typeW rangeW c)).
Proof.
  intros Hn Ht Hr. unfold Ink.layout_row, cell_texts, aligned_cells.
  cbn [children_of List.map app Ink.text_of String.concat Ink.sep].
  rewrite !padEnd_length. repeat split; try lia.
  destruct (String.eqb_spec (shown_range c) EmptyString) as [E|_];
    cbn [List.map Ink.text_of String.concat]; rewrite padEnd_length;
    [simpl; lia | lia].
Qed.

(** X8.  The box of the columns of a table, in the decorated script, is
    a heading row followed by one row for each column.  In every column
    row the name, the type and the range stand in cells of the same
    three widths, two spaces apart: the longest name, the longest type
    label, and the longest range or 5.  The heading cell of the range has
    the width of the range cells; the heading cells of the name and of
    the type are 4 wide when the column cells are narrower. *)
Theorem columns_box_aligned (engine : Engine) (columns : list ColumnInfo.t)
  (box : Ink.Element) :
  Ink.columns_box engine columns = Ok box ->
  exists (heading : Ink.Element) (rows : list Ink.Element)
         (nameW typeW rangeW : nat),
    children_of box = heading :: rows
    /\ List.length rows = List.length columns
    /\ (5 <= rangeW)%nat
    /\ Forall (fun row => aligned_cells nameW typeW rangeW (cell_texts row))
         rows
    /\ aligned_cells (Nat.max nameW 4) (Nat.max typeW 4) rangeW
         (cell_texts heading).
Proof.
  rewrite columns_box_layout.
  destruct (Ink.traverse (Ink.column_row engine) columns) as [rs|e] eqn:Er;
    [|discriminate].
  cbn [bind].
  destruct (Ink.traverse Ink.row_content rs) as [cols|e] eqn:Ec;
    [|discriminate].
  cbn [bind]. intros [= <-]. unfold Ink.layout_columns.
  set (nameW := max_list (List.map (fun c => String.length (shown_name c)) cols)).
  set (typeW := max_list (List.map (fun c => String.length (shown_type c)) cols)).
  set (rangeW :=
         max_list (5%nat :: List.map (fun c => String.length (shown_range c)) cols)).
  eexists _, (List.map (Ink.layout_row nameW typeW rangeW) cols),
    nameW, typeW, rangeW.
  split; [reflexivity|]. split.
  { rewrite length_map. apply traverse_length in Er, Ec. lia. }
  split.
  { apply (max_list_ge 5). now left. }
  split.
  - apply List.Forall_forall. intros row Hrow.
    apply in_map_iff in Hrow as (c & <- & Hc).
    apply layout_row_aligned.
    + apply max_list_ge.
      now apply (in_map (fun c => String.length (shown_name c))).
    + apply max_list_ge.
      now apply (in_map (fun c => String.length (shown_type c))).
    + apply max_list_ge. right.
      now apply (in_map (fun c => String.length (shown_range c))).
  - unfold aligned_cells, cell_texts.
    cbn [children_of List.map Ink.text_of String.concat Ink.sep].
    rewrite !padEnd_length.
    assert (5 <= rangeW)%nat by (apply (max_list_ge 5); now left).
    repeat split; simpl String.length; lia.
Qed.

Lemma columns_box_aligned_witness :
  exists box (heading : Ink.Element) (rows : list Ink.Element),
    Ink.columns_box utc_engine (TableView.columns Sample.numbers_view)
    = Ok box
    /\ children_of box = heading :: rows
    /\ List.length rows = 1%nat.
Proof.
  destruct (Ink.columns_box utc_engine (TableView.columns Sample.numbers_view))
    as [box|e] eqn:E; [|vm_compute in E; discriminate E].
  destruct (columns_box_aligned utc_engine
              (TableView.columns Sample.numbers_view) box E)
    as (heading & rows & _ & _ & _ & H1 & H2 & _).
  exists box, heading, rows. auto.
Defined.

(** ** Kinds of column types *)

Lemma boolean_not_numeric_nor_temporal (dt : string) :
  isBooleanDataType dt = true ->
  isNumericDataType dt = false /\ isTemporalDataType dt = false.
Proof.
  unfold isBooleanDataType, isNumericDataType, isTemporalDataType.
  intros H. apply String.eqb_eq in H. rewrite H. split; reflexivity.
Qed.

Lemma numeric_not_temporal (dt : string) :
  isNumericDataType dt = true -> isTemporalDataType dt = false.
Proof.
  intros H. destruct (isTemporalDataType dt) eqn:E; [|reflexivity].
  apply temporal_not_numeric in E. congruence.
Qed.

(** X9.  A type is of at most one of the three kinds numeric, temporal
    and boolean.  So the row of a column never has both a range and
    values: values are shown for a boolean type only, and then the range
    is empty; a range is shown for a numeric or temporal type only, and
    then the values are empty. *)
Theorem column_row_range_or_values (engine : Engine) (c : ColumnInfo.t)
  (r : Ink.Row) :
  Ink.column_row engine c = Ok r ->
  (Ink.values r <> EmptyString ->
   isBooleanDataType (ColumnInfo.data_type c) = true
   /\ Ink.range r = EmptyString)
  /\ (Ink.range r <> EmptyString ->
      (isNumericDataType (ColumnInfo.data_type c) = true
       \/ isTemporalDataType (ColumnInfo.data_type c) = true)
      /\ Ink.values r = EmptyString).
Proof.
  unfold Ink.column_row.
  destruct (isBooleanDataType (ColumnInfo.data_type c)) eqn:Eb.
  - destruct (boolean_not_numeric_nor_temporal _ Eb) as [-> ->].
    cbn [andb bind]. intros [= <-]. cbn [Ink.values Ink.range].
    split; [auto | congruence].
  - cbn [andb].
    match goal with
    | |- (let* range := ?x in _) = _ -> _ => destruct x as [range|e] eqn:Ex
    end; [|discriminate].
    cbn [bind]. intros [= <-]. cbn [Ink.values Ink.range].
    split; [congruence|]. intros Hne. split; [|reflexivity].
    destruct (isNumericDataType (ColumnInfo.data_type c)); [auto|].
    destruct (isTemporalDataType (ColumnInfo.data_type c)); [auto|].
    cbn [andb] in Ex. injection Ex as <-. congruence.
Qed.

Lemma column_row_range_or_values_witness :
  exists r,
    Ink.column_row utc_engine
      (ColumnInfo.mk "n" "integer" (Val "1") (Val "5") Null Null) = Ok r
    /\ Ink.range r = "1-5" /\ Ink.values r = EmptyString.
Proof.
  eexists. split; [reflexivity|]. split; [reflexivity|].
  refine (proj2 (proj2 (column_row_range_or_values utc_engine
                          (ColumnInfo.mk "n" "integer" (Val "1") (Val "5")
                             Null Null) _ eq_refl) _)).
  discriminate.
Defined.

(** X10.  Every type of one of the three kinds is a key of the table of
    [humanDataType]: its label is the abbreviation of the table, a text,
    which the renderer can pad. *)
Theorem kinds_have_labels (dt : string) :
  isNumericDataType dt || isTemporalDataType dt || isBooleanDataType dt
  = true ->
  exists v,
    assoc (toLowerCase dt) humanDataType_map = Some v
    /\ humanDataType dt = LStr v
    /\ forall n, Ink.label_padEnd n (humanDataType dt) = Ok (padEnd n v).
Proof.
  intros H.
  assert (exists v, assoc (toLowerCase dt) humanDataType_map = Some v)
    as [v Ev].
  { unfold isNumericDataType, isTemporalDataType, isBooleanDataType in H.
    repeat (apply orb_prop in H as [H|H]);
      apply String.eqb_eq in H; rewrite H; eexists; reflexivity. }
  exists v. split; [exact Ev|].
  rewrite (humanDataType_recognized dt v Ev). auto.
Qed.

Lemma kinds_have_labels_witness :
  exists v,
    assoc (toLowerCase "Double Precision") humanDataType_map = Some v
    /\ humanDataType "Double Precision" = LStr v.
Proof.
  destruct (kinds_have_labels "Double Precision" eq_refl) as (v & H1 & H2 & _).
  exists v. auto.
Defined.

(** ** Rounding of the percentages *)

(** X11.  For a count [n] of a total [d] that is not zero, the text of
    [formatPercentOneDecimal] is a well-formed percentage between 0.0%
    and 100.0%, the multiple of a tenth of a percent nearest to the
    exact ratio, a half being rounded up; it is ["0.0%"] for no count
    and ["100.0%"] for the whole total, and it does not decrease when the
    count grows. *)
Theorem formatPercent_nearest_tenth (n d : Z) :
  0 <= n <= d -> 0 < d ->
  exists p,
    percent_tenths (formatPercentOneDecimal n d) = Some p
    /\ 0 <= p <= 1000
    /\ - d <= 2 * (1000 * n - p * d) < d
    /\ (n = 0 -> formatPercentOneDecimal n d = "0.0%")
    /\ (n = d -> formatPercentOneDecimal n d = "100.0%")
    /\ forall n', n <= n' ->
         exists p', percent_tenths (formatPercentOneDecimal n' d) = Some p'
                    /\ p <= p'.
Proof.
  intros Hn Hd. exists (permille n d).
  split; [apply formatPercent_tenths; lia|].
  assert (forall m, 0 <= m ->
            permille m d * d <= 1000 * m + d / 2
            < permille m d * d + d) as Hp.
  { intros m Hm. unfold permille.
    assert (0 <= d / 2) by (apply Z.div_pos; lia).
    rewrite (Z.quot_div_nonneg d 2) by lia.
    rewrite Z.quot_div_nonneg by lia.
    pose proof (Z.div_mod (m * 1000 + d / 2) d ltac:(lia)).
    pose proof (Z.mod_pos_bound (m * 1000 + d / 2) d ltac:(lia)). lia. }
  pose proof (Hp n ltac:(lia)) as Hpn.
  pose proof (Z.div_mod d 2 ltac:(lia)) as Eh.
  pose proof (Z.mod_pos_bound d 2 ltac:(lia)) as Bh.
  assert (0 <= permille n d) as H0 by (apply permille_nonneg; lia).
  split; [|split; [lia|]].
  { split; [exact H0|]. nia. }
  split; [|split].
  - intros ->. unfold formatPercentOneDecimal.
    destruct (Z.eqb_spec d 0); [lia|].
    replace (Z.quot (0 * 1000 + Z.quot d 2) d) with 0; [reflexivity|].
    symmetry. rewrite (Z.quot_div_nonneg d 2) by lia.
    rewrite Z.quot_div_nonneg by lia. apply Z.div_small. lia.
  - intros ->. unfold formatPercentOneDecimal.
    destruct (Z.eqb_spec d 0); [lia|].
    replace (Z.quot (d * 1000 + Z.quot d 2) d) with 1000; [reflexivity|].
    symmetry. rewrite (Z.quot_div_nonneg d 2) by lia.
    rewrite Z.quot_div_nonneg by lia.
    replace (d * 1000 + d / 2) with (d / 2 + 1000 * d) by lia.
    rewrite Z.div_add by lia. rewrite Z.div_small by lia. reflexivity.
  - intros n' Hn'. exists (permille n' d).
    split; [apply formatPercent_tenths; lia|].
    pose proof (Hp n' ltac:(lia)) as Hpn'. nia.
Qed.

Lemma formatPercent_nearest_tenth_witness :
  exists p,
    percent_tenths (formatPercentOneDecimal 28000 42000) = Some p
    /\ 0 <= p <= 1000.
Proof.
  destruct (formatPercent_nearest_tenth 28000 42000 ltac:(lia) ltac:(lia))
    as (p & H1 & H2 & _).
  exists p. auto.
Defined.

(** ** Outcome of a run *)

(** X12.  A run of the plain script ends with exit code 0 and nothing on
    the error stream exactly when the connection opens and closes and
    its two catalog statements succeed; a count statement that fails
    never makes the run fail.  Otherwise the exit code is 1 and the error
    stream holds one line, for the first of these failures, or for the
    failure to close when there is one; when the connection does not
    open or a catalog statement fails, nothing is written to the output. *)
Theorem plain_run_outcome (db : Database) (argv : list string) :
  let out := Plain.listTables db argv in
  screen out = None
  /\ ((exitCode out = 0 /\ stderr out = []
       /\ connect_error db = None /\ end_error db = None
       /\ catalog_error db QEstimatedTables = None
       /\ catalog_error db QColumns = None)
      \/ (exitCode out = 1
          /\ exists e,
               stderr out = ["Failed to list tables: " ++ e]
               /\ (connect_error db = Some e
                   \/ (connect_error db = None /\ end_error db = Some e)
                   \/ (connect_error db = None /\ end_error db = None
                       /\ (catalog_error db QEstimatedTables = Some e
                           \/ (catalog_error db QEstimatedTables = None
                               /\ catalog_error db QColumns = Some e))))
               /\ (connect_error db = Some e
                   \/ catalog_error db QEstimatedTables <> None
                   \/ catalog_error db QColumns <> None ->
                   stdout out = []))).
Proof.
  cbv zeta. unfold Plain.listTables, finally_end, fetchEstimatedTables,
    Plain.fetchColumnsByTable, catalog_query.
  destruct (connect_error db) as [ec|].
  { split; [reflexivity|]. right. split; [reflexivity|].
    exists ec. cbn. auto. }
  destruct (catalog_error db QEstimatedTables) as [e1|]; cbn [bind].
  { destruct (end_error db) as [ee|]; (split; [reflexivity|]); right;
      (split; [reflexivity|]); eexists; cbn; eauto 10. }
  destruct (catalog_error db QColumns) as [e2|]; cbn [bind].
  { destruct (end_error db) as [ee|]; (split; [reflexivity|]); right;
      (split; [reflexivity|]); eexists; cbn; eauto 10. }
  destruct (end_error db) as [ee|]; (split; [reflexivity|]).
  - right. split; [reflexivity|]. exists ee. cbn.
    split; [reflexivity|]. split; [auto|].
    intros [H|[H|H]]; congruence.
  - left. cbn. auto 10.
Qed.

(** X13.  The plain script asks for no statistics, and without the flag
    [--exact] neither script asks for a count: the outcome of a run is
    the same whatever the database would answer to these statements. *)
Theorem unasked_statements (engine : Engine) (db : Database)
  (argv : list string)
  (ranges : string -> result (list RangeRow.t))
  (histograms : string -> result (list HistRow.t))
  (counts : string -> result (list CountRow.t)) :
  Plain.listTables (with_answers db ranges histograms (select_count db)) argv
  = Plain.listTables db argv
  /\ (~ In "--exact" argv ->
      Plain.listTables (with_answers db ranges histograms counts) argv
      = Plain.listTables db argv
      /\ Ink.listTables engine
           (with_answers db (select_range db) (select_histogram db) counts)
           argv
         = Ink.listTables engine db argv).
Proof.
  split; [reflexivity|]. intros Hno.
  assert (has_flag (fst (parseArgs argv)) "--exact" = false) as Hf.
  { destruct (has_flag (fst (parseArgs argv)) "--exact") eqn:E;
      [|reflexivity].
    apply parseArgs_flags in E. contradiction. }
  unfold Plain.listTables, Ink.listTables.
  destruct (parseArgs argv) as [flags options]. cbn [fst] in Hf.
  rewrite Hf. split; reflexivity.
Qed.

Lemma unasked_statements_witness :
  Plain.listTables
    (with_answers Sample.db (fun _ => Ok []) (fun _ => Ok [])
       (fun _ => Ok [])) []
  = Plain.listTables Sample.db [].
Proof.
  destruct (unasked_statements utc_engine Sample.db []
              (fun _ => Ok []) (fun _ => Ok []) (fun _ => Ok [])) as [_ H].
  destruct H as [H _]; [intros []|]. exact H.
Defined.

(** X14.  When nothing fails and the catalog has tables, the plain
    script writes the lines of [renderTables] for the views of its mode,
    exact when [--exact] is an argument and estimated otherwise, the
    heading of the mode first. *)
Theorem plain_run_mode (db : Database) (argv : list string) :
  connect_error db = None -> end_error db = None ->
  (forall q, catalog_error db q = None) ->
  select_estimated_tables db <> [] ->
  exists byTable,
    Plain.fetchColumnsByTable db = Ok byTable
    /\ (In "--exact" argv ->
        stdout (Plain.listTables db argv)
        = header exact
          :: flat_map
               (fun v =>
                  Plain.table_line exact v
                  :: Plain.printColumns (TableView.columns v))
               (buildExactView db (select_estimated_tables db) byTable))
    /\ (~ In "--exact" argv ->
        stdout (Plain.listTables db argv)
        = header estimated
          :: flat_map
               (fun v =>
                  Plain.table_line estimated v
                  :: Plain.printColumns (TableView.columns v))
               (buildEstimatedView (select_estimated_tables db) byTable)).
Proof.
  intros Hc Hend Hq Hne.
  destruct (plain_fetchColumnsByTable_ok db Hq) as [byTable Eb].
  exists byTable. split; [exact Eb|].
  assert (forall b, has_flag (fst (parseArgs argv)) "--exact" = b ->
            stdout (Plain.listTables db argv)
            = if negb b then
                Plain.renderTables
                  (buildEstimatedView (select_estimated_tables db) byTable)
                  estimated
              else
                Plain.renderTables
                  (buildExactView db (select_estimated_tables db) byTable)
                  exact) as H.
  { intros b Hb. unfold Plain.listTables, finally_end, fetchEstimatedTables,
      catalog_query.
    rewrite Hc, Hend, Hq, Eb. cbn [bind stdout].
    destruct (select_estimated_tables db) as [|t ts]; [congruence|].
    destruct (parseArgs argv) as [flags options]. cbn [fst] in Hb.
    now rewrite Hb. }
  split; intros Hin.
  - apply parseArgs_flags in Hin. now rewrite (H true Hin).
  - rewrite (H false); [reflexivity|].
    destruct (has_flag (fst (parseArgs argv)) "--exact") eqn:E;
      [|reflexivity].
    apply parseArgs_flags in E. contradiction.
Qed.

Lemma plain_run_mode_witness :
  exists byTable,
    Plain.fetchColumnsByTable Sample.db = Ok byTable
    /\ stdout (Plain.listTables Sample.db ["--exact=1"; "--verbose"])
       = header estimated
         :: flat_map
              (fun v =>
                 Plain.table_line estimated v
                 :: Plain.printColumns (TableView.columns v))
              (buildEstimatedView (select_estimated_tables Sample.db)
                 byTable).
Proof.
  destruct (plain_run_mode Sample.db ["--exact=1"; "--verbose"])
    as (byTable & E & _ & H);
    [reflexivity | reflexivity | intros q; reflexivity | discriminate |].
  exists byTable. split; [exact E|]. apply H.
  intros [H1|[H1|[]]]; discriminate H1.
Defined.

(** ** Catalog reader *)

Section Sorting.

Context {A : Type} (le : A -> A -> bool).

Hypothesis le_total : forall a b, le a b = false -> le b a = true.

Lemma insert_by_sorted (x : A) (l : list A) :
  Sorted (fun a b => le a b = true) l ->
  Sorted (fun a b => le a b = true) (insert_by le x l).
Proof.
  induction l as [|y l IH]; intros Hs; simpl.
  - constructor; constructor.
  - destruct (le x y) eqn:E.
    + constructor; [exact Hs | constructor; exact E].
    + inversion Hs as [|? ? Hl Hhd]; subst.
      constructor; [apply IH; exact Hl|].
      destruct l as [|z l]; simpl.
      * constructor. now apply le_total.
      * destruct (le x z); constructor; [now apply le_total|].
        now inversion Hhd.
Qed.

Lemma sort_by_sorted (l : list A) :
  Sorted (fun a b => le a b = true) (sort_by le l).
Proof.
  unfold sort_by. induction l as [|x l IH]; simpl; [constructor|].
  now apply insert_by_sorted.
Qed.

End Sorting.

Lemma Sorted_weaken {A : Type} (R1 R2 : A -> A -> Prop) (l : list A) :
  (forall a b, R1 a b -> R2 a b) -> Sorted R1 l -> Sorted R2 l.
Proof.
  intros H. induction 1 as [|a l Hs IH Hhd]; constructor; [exact IH|].
  destruct Hhd; constructor; auto.
Qed.

Lemma lex_le_total (a1 b1 : string) (r1 r2 : bool) :
  (r1 = false -> r2 = true) ->
  lex_le a1 b1 r1 = false -> lex_le b1 a1 r2 = true.
Proof.
  intros Hr. unfold lex_le. rewrite (String.compare_antisym a1 b1).
  destruct (String.compare b1 a1); simpl; auto; discriminate.
Qed.

Lemma string_leb_total (a b : string) :
  String.leb a b = false -> String.leb b a = true.
Proof. intros H. destruct (String.leb_total a b); congruence. Qed.

Lemma select_estimated_tables_in (db : Database) (t : TableInfo.t) :
  In t (select_estimated_tables db) <->
  exists c n,
    In c (pg_class db) /\ In n (pg_namespace db)
    /\ PgNamespace.oid n = PgClass.relnamespace c
    /\ PgClass.relkind c = "r"%char
    /\ user_schema (PgNamespace.nspname n) = true
    /\ t = TableInfo.mk (PgNamespace.nspname n) (PgClass.relname c)
             (cols_count db (PgNamespace.nspname n) (PgClass.relname c))
             (Z.max (PgClass.reltuples c) 0).
Proof.
  unfold select_estimated_tables. rewrite sort_by_In, in_map_iff. split.
  - intros ([c n] & <- & Hin). apply filter_In in Hin as [Hin Hkeep].
    apply in_flat_map in Hin as (c' & Hc' & Hin).
    apply in_flat_map in Hin as (n' & Hn' & Hin).
    destruct (Z.eqb_spec (PgNamespace.oid n') (PgClass.relnamespace c'))
      as [Eo|]; [|destruct Hin].
    destruct Hin as [[= <- <-]|[]].
    cbn [fst snd] in Hkeep. apply andb_prop in Hkeep as [Hk Hu].
    apply Ascii.eqb_eq in Hk.
    exists c', n'. repeat split; assumption.
  - intros (c & n & Hc & Hn & Eo & Hk & Hu & ->).
    exists (c, n). split; [reflexivity|].
    apply filter_In. split.
    + apply in_flat_map. exists c. split; [exact Hc|].
      apply in_flat_map. exists n. split; [exact Hn|].
      rewrite Eo, Z.eqb_refl. now left.
    + cbn [fst snd]. rewrite Hk, Hu. reflexivity.
Qed.

(** X15.  The tables statement lists the ordinary tables of the schemas
    other than [pg_catalog] and [information_schema], all of them and
    nothing else: a descriptor is listed exactly when it is the one of a
    row of [pg_class] of kind [r] and of its namespace, with the number
    of rows of the columns view of that schema and name, and the
    estimate or zero.  The descriptors come in the order of their schema,
    then of their name. *)
Theorem estimated_tables_listed (db : Database) :
  (forall t,
     In t (select_estimated_tables db) <->
     exists c n,
       In c (pg_class db) /\ In n (pg_namespace db)
       /\ PgNamespace.oid n = PgClass.relnamespace c
       /\ PgClass.relkind c = "r"%char
       /\ PgNamespace.nspname n <> "pg_catalog"
       /\ PgNamespace.nspname n <> "information_schema"
       /\ t = TableInfo.mk (PgNamespace.nspname n) (PgClass.relname c)
                (cols_count db (PgNamespace.nspname n) (PgClass.relname c))
                (Z.max (PgClass.reltuples c) 0))
  /\ Sorted table_order (select_estimated_tables db).
Proof.
  split.
  - intros t. rewrite select_estimated_tables_in.
    split; intros (c & n & Hc & Hn & Eo & Hk & H);
      exists c, n; repeat (split; [assumption|]).
    + destruct H as [Hu ->]. unfold user_schema in Hu.
      apply negb_true_iff, orb_false_elim in Hu as [H1 H2].
      apply String.eqb_neq in H1, H2. auto.
    + destruct H as (H1 & H2 & ->). split; [|reflexivity].
      unfold user_schema. apply String.eqb_neq in H1, H2.
      now rewrite H1, H2.
  - unfold select_estimated_tables.
    match goal with
    | |- Sorted _ (sort_by ?le ?l) =>
        assert (Sorted (fun a b => le a b = true) (sort_by le l)) as Hs
    end.
    { apply sort_by_sorted. intros a b.
      apply lex_le_total, string_leb_total. }
    revert Hs. apply Sorted_weaken. intros a b. unfold lex_le, table_order.
    destruct (String.compare (TableInfo.table_schema a)
                (TableInfo.table_schema b)) eqn:E; [|auto|discriminate].
    apply String.compare_eq_iff in E. auto.
Qed.

(** ** Statistics collector *)

Section LoopDomain.

Context {V : Type} (key : Columns.t -> string) (entry : Columns.t -> V).

Lemma loop_domain (cols : list Columns.t) (m : gmap string V) (k : string) :
  is_Some
    (fold_left (fun m c => <[key c := entry c]> m) cols m !! k)
  <-> is_Some (m !! k) \/ exists c, In c cols /\ key c = k.
Proof.
  revert m. induction cols as [|c cols IH]; intros m; cbn [fold_left].
  - split; [auto|]. intros [H|(c & [] & _)]. exact H.
  - rewrite IH. destruct (decide (key c = k)) as [E|Hne].
    + subst k. rewrite lookup_insert_eq. split.
      * intros _. right. exists c. split; [now left | reflexivity].
      * intros _. left. eauto.
    + rewrite lookup_insert_ne by exact Hne. split.
      * intros [H|(c' & Hc' & E)]; [auto|]. right. exists c'.
        split; [now right | exact E].
      * intros [H|(c' & [->|Hc'] & E)]; [auto|congruence|].
        right. eauto.
Qed.

End LoopDomain.

Lemma range_entry_rows (db : Database) (c : Columns.t) :
  match select_range db (Ink.range_sql c) with
  | Ok (r :: _) => Ink.range_entry db c = r
  | Ok [] => Ink.range_entry db c = Ink.unavailable_range
  | Throw _ => Ink.range_entry db c = Ink.unavailable_range
  end.
Proof.
  unfold Ink.range_entry.
  destruct (select_range db (Ink.range_sql c)) as [[|[mn mx] rows]|e];
    reflexivity.
Qed.

(** X16.  The map of [fetchNumericRanges] has an entry exactly for the
    keys of the numeric and temporal columns of the enumeration, and
    none for any other column.  The entry of a column whose key no later
    column shares is the first row of the answer to its statement, or the
    [null] bounds when the answer has no row or the statement fails. *)
Theorem numeric_ranges_entries (db : Database) :
  match Ink.fetchNumericRanges db with
  | Ok ranges =>
      (forall k,
         is_Some (ranges !! k) <->
         exists c, In c (select_numeric_columns db) /\ Ink.column_key c = k)
      /\ (forall pre c post,
            select_numeric_columns db = (pre ++ c :: post)%list ->
            Forall (fun c' => Ink.column_key c' <> Ink.column_key c) post ->
            ranges !! Ink.column_key c
            = Some match select_range db (Ink.range_sql c) with
                   | Ok (r :: _) => r
                   | _ => Ink.unavailable_range
                   end)
  | Throw e => catalog_error db QNumericColumns = Some e
  end.
Proof.
  unfold Ink.fetchNumericRanges, catalog_query.
  destruct (catalog_error db QNumericColumns) as [e|]; [reflexivity|].
  cbn [bind].
  rewrite (fold_left_pointwise _ _ _ _ (range_step_entry db)). split.
  - intros k. rewrite loop_domain, lookup_empty. split.
    + intros [[x Hx]|H]; [discriminate | exact H].
    + auto.
  - intros pre c post E Hall. rewrite E, loop_split.
    rewrite (loop_last Ink.column_key (Ink.range_entry db) post _
               (Ink.column_key c) (Ink.range_entry db c));
      [|apply lookup_insert_eq | exact Hall].
    f_equal. pose proof (range_entry_rows db c) as H.
    destruct (select_range db (Ink.range_sql c)) as [[|r rows]|e]; exact H.
Qed.

(** ** The decorated run *)








(** ** Ranges of times of day *)

Lemma digit_plain (c : ascii) :
  is_digit c = true ->
  Ascii.eqb c "T" = false /\ Ascii.eqb c "Z" = false
  /\ Ascii.eqb c "+" = false /\ Ascii.eqb c "-" = false.
Proof.
  destruct c as [[] [] [] [] [] [] [] []]; simpl; intros H;
    try discriminate H; repeat split; reflexivity.
Qed.

Lemma pad2_digits (n : Z) :
  0 <= n <= 99 ->
  exists a b, pad2 n = String a (String b EmptyString)
              /\ is_digit a = true /\ is_digit b = true.
Proof.
  intros Hn. unfold pad2. do 2 eexists. split; [reflexivity|].
  split; apply is_digit_digit_char.
  - pose proof (Z.div_pos n 10 ltac:(lia) ltac:(lia)).
    pose proof (Z.div_lt_upper_bound n 10 10 ltac:(lia) ltac:(lia)). lia.
  - pose proof (Z.mod_pos_bound n 10 ltac:(lia)). lia.
Qed.

Lemma iso_time_plain (h m s : Z) :
  valid_time h m s ->
  includes_char "T" (iso_time h m s) = false
  /\ has_zone ("1970-01-01T" ++ iso_time h m s) = false.
Proof.
  intros (Hh & Hm & Hs). unfold iso_time.
  destruct (pad2_digits h ltac:(lia)) as (a & b & -> & Ha & Hb).
  destruct (pad2_digits m ltac:(lia)) as (c & d & -> & Hc & Hd).
  destruct (pad2_digits s ltac:(lia)) as (e & f & -> & He & Hf).
  destruct (digit_plain a Ha) as (Ta & Za & _).
  destruct (digit_plain b Hb) as (Tb & Zb & _).
  destruct (digit_plain c Hc) as (Tc & Zc & _).
  destruct (digit_plain d Hd) as (Td & Zd & _).
  destruct (digit_plain e He) as (Te & Ze & _).
  destruct (digit_plain f Hf) as (Tf & Zf & _).
  split.
  - cbn. now rewrite Ta, Tb, Tc, Td, Te, Tf.
  - unfold has_zone, rev_string. cbn.
    rewrite Za, Zb, Zc, Zd, Ze, Zf, He, Hf, Hc, Hd. reflexivity.
Qed.

Lemma read_time_iso_time (h m s : Z) :
  valid_time h m s ->
  JsDate.read_time (iso_time h m s ++ "Z")
  = Some (((h * 60 + m) * 60 + s) * 1000, "Z").
Proof.
  intros (Hh & Hm & Hs). unfold iso_time, JsDate.read_time.
  rewrite !string_app_assoc.
  rewrite read_digits_pad2 by lia.
  change (":" ++ pad2 m ++ ":" ++ pad2 s ++ "Z")
    with (String ":" (pad2 m ++ String ":" (pad2 s ++ "Z"))).
  cbv beta iota.
  rewrite read_digits_pad2 by lia. cbv beta iota.
  rewrite read_digits_pad2 by lia. cbv beta iota zeta.
  replace (0 * 100 + h) with h by lia.
  replace (0 * 100 + m) with m by lia.
  replace (0 * 100 + s) with s by lia.
  replace ((0 <=? s) && (s <=? 59) && (m <=? 59)
           && ((h <=? 23)
               || (h =? 24) && (m =? 0) && (s =? 0) && (0 =? 0)))
    with true.
  - do 2 f_equal. lia.
  - symmetry. rewrite !andb_true_iff, orb_true_iff. repeat split;
      try (apply Z.leb_le; lia). left. apply Z.leb_le. lia.
Qed.

Lemma iso_parse_epoch_day (engine : Engine) (rest : string) :
  JsDate.iso_parse engine ("1970-01-01T" ++ rest)
  = match JsDate.read_time rest with
    | Some (ms, r3) =>
        match JsDate.read_offset r3 with
        | Some None => Some (local_to_utc engine (0 + ms))
        | Some (Some off) => Some (0 + ms - off)
        | None => None
        end
    | None => None
    end.
Proof. reflexivity. Qed.

Lemma parseTimeOnly_iso_time (engine : Engine) (h m s : Z) :
  valid_time h m s ->
  parseTimeOnly engine (iso_time h m s)
  = Some (((h * 60 + m) * 60 + s) * 1000).
Proof.
  intros Hv. destruct (iso_time_plain h m s Hv) as [HT HZ].
  pose proof Hv as (Hh & Hm & Hs).
  unfold parseTimeOnly. rewrite HT, HZ.
  unfold JsDate.Date_of_string.
  rewrite string_app_assoc, iso_parse_epoch_day.
  rewrite (read_time_iso_time h m s Hv).
  change (JsDate.read_offset "Z") with (Some (Some 0)). cbv beta iota.
  unfold JsDate.TimeClip.
  replace (Z.abs _ <=? 8640000000000000) with true.
  - f_equal. lia.
  - symmetry. apply Z.leb_le. rewrite Z.abs_eq; lia.
Qed.

Lemma prints_2_below_60 :
  JsDate.all_from (Z.to_nat 60) 0 prints_2 = true.
Proof. vm_compute. reflexivity. Qed.

Lemma fmtHHMM_time (h m s : Z) :
  valid_time h m s ->
  fmtHHMM (((h * 60 + m) * 60 + s) * 1000) = pad2 h ++ ":" ++ pad2 m.
Proof.
  intros (Hh & Hm & Hs). unfold fmtHHMM.
  assert (JsDate.getUTCHours (((h * 60 + m) * 60 + s) * 1000) = h) as ->.
  { unfold JsDate.getUTCHours.
    replace ((((h * 60 + m) * 60 + s) * 1000) / 3600000) with h.
    - apply Z.mod_small. lia.
    - apply Z.div_unique with (r := (m * 60 + s) * 1000); lia. }
  assert (JsDate.getUTCMinutes (((h * 60 + m) * 60 + s) * 1000) = m) as ->.
  { unfold JsDate.getUTCMinutes.
    replace ((((h * 60 + m) * 60 + s) * 1000) / 60000) with (h * 60 + m).
    - rewrite Z.add_comm, Z.mod_add by lia. apply Z.mod_small. lia.
    - apply Z.div_unique with (r := s * 1000); lia. }
  pose proof (all_below_spec 60 prints_2 prints_2_below_60) as P.
  pose proof (P h ltac:(lia)) as Ph. pose proof (P m ltac:(lia)) as Pm.
  unfold prints_2 in Ph, Pm.
  apply String.eqb_eq in Ph. apply String.eqb_eq in Pm.
  cbv zeta. now rewrite Ph, Pm.
Qed.

(** X18.  For a type of a time of day and two bounds that the database
    writes as [HH:MM:SS], the range of the decorated script is the hours
    and minutes of the two bounds, [HH:MM-HH:MM]: the seconds are
    dropped, and the result is the same on every engine and in every
    time zone of the host. *)
Theorem formatTemporalRange_time_of_day (engine : Engine)
  (h1 m1 s1 h2 m2 s2 : Z) (dt : string) :
  isTimeOnly dt = true ->
  valid_time h1 m1 s1 -> valid_time h2 m2 s2 ->
  formatTemporalRange engine (iso_time h1 m1 s1) (iso_time h2 m2 s2) dt
  = Some ((pad2 h1 ++ ":" ++ pad2 m1) ++ "-" ++ (pad2 h2 ++ ":" ++ pad2 m2)).
Proof.
  intros Ht H1 H2. unfold formatTemporalRange. rewrite Ht.
  rewrite (parseTimeOnly_iso_time engine _ _ _ H1),
    (parseTimeOnly_iso_time engine _ _ _ H2).
  now rewrite (fmtHHMM_time _ _ _ H1), (fmtHHMM_time _ _ _ H2).
Qed.

Lemma formatTemporalRange_time_of_day_witness :
  formatTemporalRange utc_engine "08:05:59" "23:40:00"
    "time without time zone"
  = Some "08:05-23:40".
Proof.
  apply (formatTemporalRange_time_of_day utc_engine 8 5 59 23 40 0
           "time without time zone");
    [reflexivity | unfold valid_time; lia | unfold valid_time; lia].
Defined.
